(** * fabric-cli chaincode tasks: invoketask and querytask

    A shallow embedding of the two task types of
    [fabric-cli/cmd/fabric-cli/chaincode]:

    - [invoketask.Task]: submits a transaction, waits for the commit
      notification or the timeout, classifies the outcome and either calls
      the completion callback or asks the executor to run the task again;
    - [querytask.Task]: submits one query and calls the callback.

    Go's [int] and [time.Duration] are 64-bit integers, modelled as [Z] with
    the wrap-around of [++] written out.  The collaborators of a task (the
    channel client, the executor, the logger, the callback) are outside the
    package: what they answer is read from an environment, and every call
    made to them is appended to a trace of events, in program order. *)

From Stdlib Require Import ZArith List String Bool Lia.
Import ListNotations.

Local Open Scope string_scope.
Local Open Scope list_scope.
Local Open Scope Z_scope.

(** ** Machine integers *)

Definition int_min : Z := - 2 ^ 63.
Definition int_max : Z := 2 ^ 63 - 1.

Definition int_range (z : Z) : Prop := int_min <= z <= int_max.

(** Two's complement wrap-around of a 64-bit signed integer. *)
Definition wrap_int (z : Z) : Z := (z + 2 ^ 63) mod 2 ^ 64 - 2 ^ 63.

(** [time.Duration] is an [int64] number of nanoseconds. *)
Definition Duration : Type := Z.

Definition Millisecond : Duration := 1000000.

(** ** Protobuf validation codes (package [pb])

    [pb.TxValidationCode] is an [int32] enumeration of the ledger platform's
    protobuf definitions; the switch of [doInvoke] names four of its values.
    The properties below use only that VALID differs from the three
    conflict codes. *)
Module pb.

Definition TxValidationCode : Type := Z.

Definition TxValidationCode_VALID : TxValidationCode := 0.
Definition TxValidationCode_DUPLICATE_TXID : TxValidationCode := 9.
Definition TxValidationCode_ENDORSEMENT_POLICY_FAILURE : TxValidationCode := 10.
Definition TxValidationCode_MVCC_READ_CONFLICT : TxValidationCode := 11.
Definition TxValidationCode_PHANTOM_READ_CONFLICT : TxValidationCode := 12.
Definition TxValidationCode_INVALID_OTHER_REASON : TxValidationCode := 255.

End pb.

(** ** Errors (package [invokeerror]) *)
Module invokeerror.

(** Modelled from the spec: package [invokeerror] is not among the sources.
    The spec gives an error taxonomy of three kinds, mutually exclusive per
    attempt (TransientError, PersistentError, TimeoutOnCommit); the error
    carries its kind as a classification code. *)
Inductive ErrorCode : Type :=
| TransientError
| TimeoutOnCommit
| PersistentError.

End invokeerror.

(** An argument of a format string ([Debugf], [Errorf], [Wrapf]); [E] is the
    type of Go errors. *)
Inductive FmtArg (E : Type) : Type :=
| ArgString (s : string)
| ArgStrings (l : list string)
| ArgInt (z : Z)
| ArgCode (c : pb.TxValidationCode)
| ArgError (e : E).

Arguments ArgString {E} s.
Arguments ArgStrings {E} l.
Arguments ArgInt {E} z.
Arguments ArgCode {E} c.
Arguments ArgError {E} e.

(** A non-nil value of Go's [error] interface.  Its dynamic type either
    implements [invokeerror.Error] (it was built by [invokeerror.Errorf] or
    [invokeerror.Wrapf], and keeps the code, the cause, the format and the
    arguments it was built from) or it does not (any error of a
    collaborator).  A possibly nil [error] is an [option error], [None]
    being [nil]. *)
#[local] Unset Elimination Schemes.
Inductive error : Type :=
| ForeignError (msg : string)
| InvokeError (code : invokeerror.ErrorCode) (cause : option error)
              (format : string) (args : list (FmtArg error)).
#[local] Set Elimination Schemes.

(** Modelled from the spec: [invokeerror.Errorf], which is not among the
    sources, builds an error classified by [code]. *)
Definition Errorf (code : invokeerror.ErrorCode) (format : string)
    (args : list (FmtArg error)) : error :=
  InvokeError code None format args.

(** Modelled from the spec: [invokeerror.Wrapf], which is not among the
    sources, builds an error classified by [code] around a cause. *)
Definition Wrapf (code : invokeerror.ErrorCode) (cause : option error)
    (format : string) (args : list (FmtArg error)) : error :=
  InvokeError code cause format args.

(** Modelled from the spec: the method [ErrorCode()] of [invokeerror.Error],
    which is not among the sources, reads the classification code back.
    Applied to an [error] it stands for the type assertion
    [err.(invokeerror.Error)] followed by the call: [None] when the dynamic
    type of [err] does not implement the interface. *)
Definition ErrorCode (err : error) : option invokeerror.ErrorCode :=
  match err with
  | InvokeError code _ _ _ => Some code
  | ForeignError _ => None
  end.

(** ** Collaborators *)

(** A reference to an object of a collaborating package (a channel client,
    an executor, a printer) or to a function value (the callback). *)
Inductive Ref : Type := ref (addr : nat).

(** [action.ArgStruct] *)
Record ArgStruct : Type := {
  Func : string;
  Args : list string
}.

(** Modelled from the spec: [utils.AsBytes], which is not among the sources,
    turns the arguments into the ordered sequence of byte strings of the
    request. *)
Definition AsBytes (args : list string) : list (list Byte.byte) :=
  map list_byte_of_string args.

(** [responsefilter.New(verbose, printer)] *)
Record ResponseFilter : Type := {
  filter_verbose : bool;
  filter_printer : Ref
}.

(** [apitxn.ExecuteTxRequest] and [apitxn.QueryRequest] have the same three
    fields. *)
Record Request : Type := {
  ChaincodeID : string;
  Fcn : string;
  ReqArgs : list (list Byte.byte)
}.

(** [apitxn.ExecuteTxOpts] and [apitxn.QueryOpts].  The [Notifier] of an
    [ExecuteTxOpts] is a channel made for the call; what arrives on it is the
    [select_result] of the environment. *)
Record Opts : Type := {
  TxFilter : ResponseFilter;
  Timeout : Duration
}.

(** [apitxn.TransactionID] *)
Record TransactionID : Type := {
  ID : string;
  Nonce : list Byte.byte
}.

(** [apitxn.ExecuteTxResponse], the commit notification. *)
Record ExecuteTxResponse : Type := {
  Response : TransactionID;
  TxValidationCode : pb.TxValidationCode;
  Error : option error
}.

(** The process-wide configuration [cliconfig.Config()]. *)
Record Config : Type := {
  cfg_Timeout : Duration;
  cfg_ChaincodeID : string
}.

(** ** Traces *)

Inductive Level : Type := Debug | Err.

Inductive Event : Type :=
| EvLog (lvl : Level) (format : string) (args : list (FmtArg error))
| EvExecuteTx (client : Ref) (req : Request) (opts : Opts)
| EvAwaitCommit (timeout : Duration)
| EvQuery (client : Ref) (req : Request) (opts : Opts)
| EvSubmitDelayed (executor : Ref) (task : string) (delay : Duration)
                  (result : option error)
| EvCallback (callback : Ref) (err : option error).

Definition Trace : Type := list Event.

(** The arguments of the callback invocations of a trace, in order. *)
Fixpoint callbacks (tr : Trace) : list (option error) :=
  match tr with
  | [] => []
  | EvCallback _ err :: tr' => err :: callbacks tr'
  | _ :: tr' => callbacks tr'
  end.

(** The scheduling calls of a trace, with what each returned. *)
Fixpoint submissions (tr : Trace) : list (option error) :=
  match tr with
  | [] => []
  | EvSubmitDelayed _ _ _ r :: tr' => r :: submissions tr'
  | _ :: tr' => submissions tr'
  end.

(** The scheduling calls of a trace that returned an error. *)
Fixpoint failed_submissions (tr : Trace) : list error :=
  match tr with
  | [] => []
  | EvSubmitDelayed _ _ _ (Some e) :: tr' => e :: failed_submissions tr'
  | _ :: tr' => failed_submissions tr'
  end.

(** The commit waits of a trace. *)
Fixpoint commit_waits (tr : Trace) : nat :=
  match tr with
  | [] => 0%nat
  | EvAwaitCommit _ :: tr' => S (commit_waits tr')
  | _ :: tr' => commit_waits tr'
  end.

(** The calls to the channel client in a trace: transactions and queries. *)
Fixpoint executions (tr : Trace) : nat :=
  match tr with
  | [] => 0%nat
  | EvExecuteTx _ _ _ :: tr' => S (executions tr')
  | _ :: tr' => executions tr'
  end.

Fixpoint queries (tr : Trace) : nat :=
  match tr with
  | [] => 0%nat
  | EvQuery _ _ _ :: tr' => S (queries tr')
  | _ :: tr' => queries tr'
  end.

(** The errors logged at error level. *)
Fixpoint logged_errors (tr : Trace) : list (string * list (FmtArg error)) :=
  match tr with
  | [] => []
  | EvLog Err f a :: tr' => (f, a) :: logged_errors tr'
  | _ :: tr' => logged_errors tr'
  end.

(** The transactions submitted in a trace: the client called, the request
    and the options of each call, in order. *)
Fixpoint transactions (tr : Trace) : list (Ref * Request * Opts) :=
  match tr with
  | [] => []
  | EvExecuteTx client req opts :: tr' =>
      (client, req, opts) :: transactions tr'
  | _ :: tr' => transactions tr'
  end.


(** ** The monad of a method body

    A method reads the answers of its collaborators from an environment [R],
    updates a state [S], emits a trace of events, and either returns a value
    or panics ([None]). *)
Definition Go (R S A : Type) : Type :=
  R -> S -> option A * S * Trace.

Definition ret {R S A} (a : A) : Go R S A :=
  fun _ s => (Some a, s, []).

Definition bind {R S A B} (m : Go R S A) (k : A -> Go R S B) : Go R S B :=
  fun r s =>
    match m r s with
    | (Some a, s', tr) =>
        match k a r s' with
        | (b, s'', tr') => (b, s'', tr ++ tr')
        end
    | (None, s', tr) => (None, s', tr)
    end.

Definition panic {R S A} : Go R S A :=
  fun _ s => (None, s, []).

Definition ask {R S} : Go R S R :=
  fun r s => (Some r, s, []).

Definition get {R S} : Go R S S :=
  fun _ s => (Some s, s, []).

Definition modify {R S} (f : S -> S) : Go R S unit :=
  fun _ s => (Some tt, f s, []).

Definition emit {R S} (e : Event) : Go R S unit :=
  fun _ s => (Some tt, s, [e]).

Declare Scope go_scope.
Delimit Scope go_scope with go.

Notation "x <- m ;; k" := (bind m (fun x => k))
  (at level 61, m at next level, right associativity) : go_scope.
Notation "m ;; k" := (bind m (fun _ => k))
  (at level 61, right associativity) : go_scope.

Local Open Scope go_scope.

Definition Debugf {R S} (format : string) (args : list (FmtArg error))
  : Go R S unit :=
  emit (EvLog Debug format args).

Definition Logger_Errorf {R S} (format : string) (args : list (FmtArg error))
  : Go R S unit :=
  emit (EvLog Err format args).

(** How a block of statements ends: by falling out of it, or by [return]. *)
Inductive Flow : Type := Next | Return.

(** ** Package [invoketask] *)
Module invoketask.

(** [type Task struct] *)
Record Task : Type := {
  executor : Ref;
  channelClient : Ref;
  id : string;
  ccID : string;
  args : ArgStruct;
  maxAttempts : Z;
  resubmitDelay : Duration;
  attempt : Z;
  lastErr : option error;
  callback : Ref;
  verbose : bool;
  printer : Ref;
  txID : string
}.

Definition set_attempt (n : Z) (t : Task) : Task :=
  {| executor := executor t; channelClient := channelClient t; id := id t;
     ccID := ccID t; args := args t; maxAttempts := maxAttempts t;
     resubmitDelay := resubmitDelay t; attempt := n; lastErr := lastErr t;
     callback := callback t; verbose := verbose t; printer := printer t;
     txID := txID t |}.

Definition set_lastErr (e : option error) (t : Task) : Task :=
  {| executor := executor t; channelClient := channelClient t; id := id t;
     ccID := ccID t; args := args t; maxAttempts := maxAttempts t;
     resubmitDelay := resubmitDelay t; attempt := attempt t; lastErr := e;
     callback := callback t; verbose := verbose t; printer := printer t;
     txID := txID t |}.

Definition set_txID (x : string) (t : Task) : Task :=
  {| executor := executor t; channelClient := channelClient t; id := id t;
     ccID := ccID t; args := args t; maxAttempts := maxAttempts t;
     resubmitDelay := resubmitDelay t; attempt := attempt t;
     lastErr := lastErr t; callback := callback t; verbose := verbose t;
     printer := printer t; txID := x |}.

(** [func New] *)
Definition New (id : string) (channelClient : Ref) (ccID : string)
    (args : ArgStruct) (executor : Ref) (maxAttempts : Z)
    (resubmitDelay : Duration) (verbose : bool) (p : Ref) (callback : Ref)
  : Task :=
  {| id := id; channelClient := channelClient; printer := p; ccID := ccID;
     args := args; executor := executor; maxAttempts := maxAttempts;
     callback := callback; attempt := 1; resubmitDelay := resubmitDelay;
     verbose := verbose;
     lastErr := None; txID := "" |}.

(** [func (t *Task) Attempts] *)
Definition Attempts (t : Task) : Z := attempt t.

(** [func (t *Task) LastError] *)
Definition LastError (t : Task) : option error := lastErr t.

(** What the collaborators answer during one call of [Invoke]:
    - [execute_result]: what [ExecuteTxWithOpts] returns;
    - [select_result]: which case of the [select] fires, the notification
      [Some s] or the timer [None];
    - [submit_delayed_result]: what [SubmitDelayed] returns.
    An answer is read only if the call is reached. *)
Record Env : Type := {
  config : Config;
  execute_result : TransactionID * option error;
  select_result : option ExecuteTxResponse;
  submit_delayed_result : option error
}.

(** The task behind the pointer [t], and the executor's queue of delayed
    submissions of [t] that have not run yet. *)
Record World : Type := {
  self : Task;
  scheduled : list Duration
}.

Definition M : Type -> Type := Go Env World.

Definition this : M Task :=
  w <- get ;; ret (self w).

Definition update (f : Task -> Task) : M unit :=
  modify (fun w => {| self := f (self w); scheduled := scheduled w |}).

Definition ExecuteTxWithOpts (client : Ref) (req : Request) (opts : Opts)
  : M (TransactionID * option error) :=
  emit (EvExecuteTx client req opts) ;;
  env <- ask ;;
  ret (execute_result env).

(** [select { case s := <-txStatusEvents: ... case <-time.After(d): ... }] *)
Definition select_commit (d : Duration) : M (option ExecuteTxResponse) :=
  emit (EvAwaitCommit d) ;;
  env <- ask ;;
  ret (select_result env).

(** Modelled from the spec: package [executor] is not among the sources.
    [SubmitDelayed(task, delay)] requests re-execution of the same task
    after the delay; a returned error means that the scheduling request
    itself failed, so nothing is queued. *)
Definition SubmitDelayed (exec : Ref) (delay : Duration)
  : M (option error) :=
  env <- ask ;;
  t <- this ;;
  emit (EvSubmitDelayed exec (id t) delay (submit_delayed_result env)) ;;
  match submit_delayed_result env with
  | None =>
      modify (fun w => {| self := self w;
                          scheduled := scheduled w ++ [delay] |}) ;;
      ret None
  | Some e => ret (Some e)
  end.

Definition call_callback (err : option error) : M unit :=
  t <- this ;;
  emit (EvCallback (callback t) err).

(** [func (t *Task) doInvoke() error] *)
Definition doInvoke : M (option error) :=
  env <- ask ;;
  t <- this ;;
  Debugf "(%s) - Invoking chaincode: %s, function: %s, args: %+v. Attempt #%d...\n"
    [ArgString (id t); ArgString (ccID t); ArgString (Func (args t));
     ArgStrings (Args (args t)); ArgInt (attempt t)] ;;
  r <- ExecuteTxWithOpts (channelClient t)
         {| ChaincodeID := ccID t;
            Fcn := Func (args t);
            ReqArgs := AsBytes (Args (args t)) |}
         {| TxFilter := {| filter_verbose := verbose t;
                           filter_printer := printer t |};
            Timeout := cfg_Timeout (config env) |} ;;
  let (txnID, err) := r in
  match err with
  | Some err =>
      ret (Some (Errorf invokeerror.TransientError
                   "SendTransactionProposal return error: %v"
                   [ArgError err]))
  | None =>
      update (set_txID (ID txnID)) ;;
      Debugf "(%s) - Committing transaction - TxID [%s] ...\n"
        [ArgString (id t); ArgString (ID txnID)] ;;
      s <- select_commit (cfg_Timeout (config env)) ;;
      match s with
      | Some s =>
          let code := TxValidationCode s in
          if (code =? pb.TxValidationCode_VALID)%Z then
            Debugf "(%s) - Successfully committed transaction [%s] ...\n"
              [ArgString (id t); ArgString (ID txnID)] ;;
            ret None
          else if (code =? pb.TxValidationCode_DUPLICATE_TXID)%Z
                  || (code =? pb.TxValidationCode_MVCC_READ_CONFLICT)%Z
                  || (code =? pb.TxValidationCode_PHANTOM_READ_CONFLICT)%Z
          then
            Debugf "(%s) - Transaction commit failed for [%s] with code [%s]. This is most likely a transient error.\n"
              [ArgString (id t); ArgString (ID txnID); ArgCode code] ;;
            ret (Some (Wrapf invokeerror.TransientError (Error s)
                         "invoke Error received from eventhub for TxID [%s]. Code: %s"
                         [ArgString (ID txnID); ArgCode code]))
          else
            Debugf "(%s) - Transaction commit failed for [%s] with code [%s].\n"
              [ArgString (id t); ArgString (ID txnID); ArgCode code] ;;
            ret (Some (Wrapf invokeerror.PersistentError (Error s)
                         "invoke Error received from eventhub for TxID [%s]. Code: %s"
                         [ArgString (ID txnID); ArgCode code]))
      | None =>
          ret (Some (Errorf invokeerror.TimeoutOnCommit
                       "timed out waiting to receive block event for TxID [%s]"
                       [ArgString (ID txnID)]))
      end
  end.

(** [func (t *Task) Invoke()] *)
Definition Invoke : M unit :=
  err <- doInvoke ;;
  match err with
  | Some err =>
      update (set_lastErr (Some err)) ;;
      (* invokeErr := err.(invokeerror.Error) panics when the assertion
         fails; when it succeeds invokeErr is not nil *)
      code <- match ErrorCode err with
              | Some code => ret code
              | None => panic
              end ;;
      flow <- match code with
              | invokeerror.TransientError =>
                  t <- this ;;
                  if (attempt t <? maxAttempts t)%Z then
                    Debugf "(%s) - Error invoking chaincode: %s. Resubmitting ...\n"
                      [ArgString (id t); ArgError err] ;;
                    update (fun t => set_attempt (wrap_int (attempt t + 1)) t) ;;
                    r <- SubmitDelayed (executor t) (resubmitDelay t) ;;
                    match r with
                    | Some err' =>
                        Logger_Errorf "error submitting task: %s"
                          [ArgError err']
                    | None => ret tt
                    end ;;
                    ret Return
                  else
                    Debugf "(%s) - Error invoking chaincode: %s. Giving up after %d attempts.\n"
                      [ArgString (id t); ArgError err; ArgInt (attempt t)] ;;
                    ret Next
              | invokeerror.TimeoutOnCommit =>
                  t <- this ;;
                  Debugf "(%s) - Timeout committing Tx %s\n"
                    [ArgString (id t); ArgString (txID t)] ;;
                  ret Next
              | invokeerror.PersistentError => ret Next
              end ;;
      match flow with
      | Return => ret tt
      | Next => call_callback (Some err)
      end
  | None =>
      t <- this ;;
      Debugf "(%s) - Successfully invoked chaincode\n" [ArgString (id t)] ;;
      call_callback None
  end.

(** *** The executor's loop *)

(** How a run of the loop ends: [invocations] counts the calls of
    [Invoke]. *)
Inductive RunResult : Type :=
| OutOfFuel
| Panicked (w : World) (tr : Trace)
| Finished (w : World) (tr : Trace) (invocations : nat).

(** Modelled from the spec: package [executor] is not among the sources.
    A delayed resubmission that was scheduled fires, and calls [Invoke] on
    the same task again; attempts of one task are strictly sequential.  The
    [k]-th call of [Invoke] reads the environment [envs k]. *)
Fixpoint drain (fuel : nat) (envs : nat -> Env) (k : nat) (w : World)
    (tr : Trace) : RunResult :=
  match scheduled w with
  | [] => Finished w tr k
  | _ :: rest =>
      match fuel with
      | O => OutOfFuel
      | S fuel' =>
          match Invoke (envs k) {| self := self w; scheduled := rest |} with
          | (Some _, w', tr') => drain fuel' envs (S k) w' (tr ++ tr')
          | (None, w', tr') => Panicked w' (tr ++ tr')
          end
      end
  end.

(** Modelled from the spec: the caller hands the task to the executor, which
    calls [Invoke] a first time. *)
Definition submit (t : Task) : World :=
  {| self := t; scheduled := [0] |}.

(** Every resubmission increments [attempt] below [maxAttempts], which
    bounds the number of calls of [Invoke]. *)
Definition fuel_for (t : Task) : nat :=
  S (Z.to_nat (maxAttempts t - attempt t)).

(** Modelled from the spec: the whole retry sequence of a task, from its
    first call of [Invoke] until nothing is scheduled any more. *)
Definition run (envs : nat -> Env) (t : Task) : RunResult :=
  drain (fuel_for t) envs 0 (submit t) [].

(** *** Vocabulary of the properties *)

(** Both integer fields hold Go [int]s. *)
Definition wf_task (t : Task) : Prop :=
  int_range (attempt t) /\ int_range (maxAttempts t).

(** What [doInvoke] returns: [None] for a panic, [Some None] for [nil]. *)
Definition outcome (env : Env) (w : World) : option (option error) :=
  fst (fst (doInvoke env w)).

(** The attempt that reads [env] returns [r], whatever the task. *)
Definition yields (env : Env) (r : option error) : Prop :=
  forall w, outcome env w = Some r.

(** The attempt that reads [env] fails with an error of code [c]. *)
Definition fails_with (env : Env) (c : invokeerror.ErrorCode) : Prop :=
  exists e, yields env (Some e) /\ ErrorCode e = Some c.

(** [Invoke] leaves these fields of the task alone. *)
Definition same_fixed_fields (t t' : Task) : Prop :=
  executor t' = executor t /\ channelClient t' = channelClient t /\
  id t' = id t /\ ccID t' = ccID t /\ args t' = args t /\
  maxAttempts t' = maxAttempts t /\ resubmitDelay t' = resubmitDelay t /\
  callback t' = callback t /\ verbose t' = verbose t /\
  printer t' = printer t.

(** The callback is invoked exactly once in the run of [t] on [envs]. *)
Definition callback_exactly_once (envs : nat -> Env) (t : Task) : Prop :=
  exists w tr n,
    run envs t = Finished w tr n /\ List.length (callbacks tr) = 1%nat.

(** *** [asProposalProcessors]

    A value of the interface [apifabclient.Peer] or
    [apitxn.ProposalProcessor] is [nil] ([None]) or an object; assigning a
    peer to a slot of processors keeps the object. *)
Definition Peer : Type := option Ref.

Definition ProposalProcessor : Type := option Ref.

(** [make([]apitxn.ProposalProcessor, n)]: [n] nil values. *)
Definition make (n : nat) : list ProposalProcessor := repeat None n.

(** [targets[i] = p]; an index out of range panics ([None]). *)
Fixpoint store (targets : list ProposalProcessor) (i : nat)
    (p : ProposalProcessor) : option (list ProposalProcessor) :=
  match targets, i with
  | [], _ => None
  | _ :: rest, O => Some (p :: rest)
  | x :: rest, S i' =>
      match store rest i' p with
      | Some rest' => Some (x :: rest')
      | None => None
      end
  end.

(** [for i, p := range peers { targets[i] = p }], from index [i] on. *)
Fixpoint range_store (i : nat) (peers : list Peer)
    (targets : list ProposalProcessor) : option (list ProposalProcessor) :=
  match peers with
  | [] => Some targets
  | p :: peers' =>
      match store targets i p with
      | Some targets' => range_store (S i) peers' targets'
      | None => None
      end
  end.

(** [func asProposalProcessors] *)
Definition asProposalProcessors (peers : list Peer)
  : option (list ProposalProcessor) :=
  range_store 0 peers (make (List.length peers)).

(** The request and the response filter that an attempt of [t] submits. *)
Definition request_of (t : Task) : Request :=
  {| ChaincodeID := ccID t;
     Fcn := Func (args t);
     ReqArgs := AsBytes (Args (args t)) |}.

Definition filter_of (t : Task) : ResponseFilter :=
  {| filter_verbose := verbose t; filter_printer := printer t |}.

End invoketask.

(** ** Package [querytask] *)
Module querytask.

(** [type Task struct] *)
Record Task : Type := {
  channelClient : Ref;
  id : string;
  args : ArgStruct;
  callback : Ref;
  printer : Ref;
  verbose : bool
}.

(** [func New] *)
Definition New (id : string) (channelClient : Ref) (args : ArgStruct)
    (printer : Ref) (verbose : bool) (callback : Ref) : Task :=
  {| id := id; channelClient := channelClient; args := args;
     callback := callback; printer := printer; verbose := verbose |}.

(** What the collaborators answer during one call of [Invoke]:
    [query_result] is what [QueryWithOpts] returns. *)
Record Env : Type := {
  config : Config;
  query_result : list Byte.byte * option error
}.

Definition M : Type -> Type := Go Env Task.

Definition QueryWithOpts (client : Ref) (req : Request) (opts : Opts)
  : M (list Byte.byte * option error) :=
  emit (EvQuery client req opts) ;;
  env <- ask ;;
  ret (query_result env).

Definition call_callback (err : option error) : M unit :=
  t <- get ;;
  emit (EvCallback (callback t) err).

(** [func (t *Task) Invoke()] *)
Definition Invoke : M unit :=
  env <- ask ;;
  t <- get ;;
  r <- QueryWithOpts (channelClient t)
         {| ChaincodeID := cfg_ChaincodeID (config env);
            Fcn := Func (args t);
            ReqArgs := AsBytes (Args (args t)) |}
         {| TxFilter := {| filter_verbose := verbose t;
                           filter_printer := printer t |};
            Timeout := cfg_Timeout (config env) |} ;;
  match snd r with
  | Some err =>
      Debugf "(%s) - Error querying chaincode: %s\n"
        [ArgString (id t); ArgError err] ;;
      call_callback (Some err)
  | None =>
      Debugf "(%s) - Chaincode query was successful\n" [ArgString (id t)] ;;
      call_callback None
  end.

End querytask.

(** ** Concrete tasks and environments *)
Module Examples.

Definition cfg : Config :=
  {| cfg_Timeout := 5000 * Millisecond; cfg_ChaincodeID := "example_cc" |}.

Definition put_args : ArgStruct :=
  {| Func := "put"; Args := ["k"; "v"] |}.

Definition tx1 : TransactionID := {| ID := "tx1"; Nonce := [] |}.

(** An invoke task with [maxAttempts = n] and a delay of 10ms. *)
Definition task (n : Z) : invoketask.Task :=
  invoketask.New "task1" (ref 1) "example_cc" put_args (ref 2) n
    (10 * Millisecond) false (ref 3) (ref 4).

(** The transaction is submitted and the notification carries [code];
    [sched] is what a scheduling call would return. *)
Definition env_code (code : pb.TxValidationCode) (sched : option error)
  : invoketask.Env :=
  {| invoketask.config := cfg;
     invoketask.execute_result := (tx1, None);
     invoketask.select_result :=
       Some {| Response := tx1; TxValidationCode := code; Error := None |};
     invoketask.submit_delayed_result := sched |}.

(** The transaction is submitted and no notification arrives in time. *)
Definition env_timeout : invoketask.Env :=
  {| invoketask.config := cfg;
     invoketask.execute_result := (tx1, None);
     invoketask.select_result := None;
     invoketask.submit_delayed_result := None |}.

(** The submission itself fails. *)
Definition env_submit_error (sched : option error) : invoketask.Env :=
  {| invoketask.config := cfg;
     invoketask.execute_result :=
       ({| ID := ""; Nonce := [] |}, Some (ForeignError "connection refused"));
     invoketask.select_result := None;
     invoketask.submit_delayed_result := sched |}.

(** Every attempt meets an MVCC conflict and every scheduling call works. *)
Definition envs_conflicts : nat -> invoketask.Env :=
  fun _ => env_code pb.TxValidationCode_MVCC_READ_CONFLICT None.

(** Two MVCC conflicts, then the transaction is valid. *)
Definition envs_third_time_lucky : nat -> invoketask.Env :=
  fun k =>
    if (k <? 2)%nat
    then env_code pb.TxValidationCode_MVCC_READ_CONFLICT None
    else env_code pb.TxValidationCode_VALID None.

(** The first attempt meets an MVCC conflict and the executor refuses the
    resubmission. *)
Definition envs_orphan : nat -> invoketask.Env :=
  fun _ =>
    env_code pb.TxValidationCode_MVCC_READ_CONFLICT
      (Some (ForeignError "executor is shut down")).

Definition query_task : querytask.Task :=
  querytask.New "query1" (ref 1) {| Func := "get"; Args := ["k"] |}
    (ref 3) false (ref 4).


End Examples.

(** * Properties *)

(** ** Traces and integers *)

Lemma callbacks_app (tr1 tr2 : Trace) :
  callbacks (tr1 ++ tr2) = callbacks tr1 ++ callbacks tr2.
Proof.
  induction tr1 as [|ev tr1 IH]; [reflexivity|].
  destruct ev; cbn; rewrite IH; reflexivity.
Qed.

Lemma submissions_app (tr1 tr2 : Trace) :
  submissions (tr1 ++ tr2) = submissions tr1 ++ submissions tr2.
Proof.
  induction tr1 as [|ev tr1 IH]; [reflexivity|].
  destruct ev; cbn; rewrite IH; reflexivity.
Qed.

Lemma failed_submissions_app (tr1 tr2 : Trace) :
  failed_submissions (tr1 ++ tr2)
  = failed_submissions tr1 ++ failed_submissions tr2.
Proof.
  induction tr1 as [|ev tr1 IH]; [reflexivity|].
  destruct ev as [| | | |? ? ? [e|]|]; cbn; rewrite IH; reflexivity.
Qed.

Lemma logged_errors_app (tr1 tr2 : Trace) :
  logged_errors (tr1 ++ tr2) = logged_errors tr1 ++ logged_errors tr2.
Proof.
  induction tr1 as [|ev tr1 IH]; [reflexivity|].
  destruct ev as [[|] ? ?| | | | |]; cbn; rewrite IH; reflexivity.
Qed.

Lemma commit_waits_app (tr1 tr2 : Trace) :
  commit_waits (tr1 ++ tr2) = (commit_waits tr1 + commit_waits tr2)%nat.
Proof.
  induction tr1 as [|ev tr1 IH]; [reflexivity|].
  destruct ev; cbn; rewrite IH; reflexivity.
Qed.

Lemma wrap_int_id (z : Z) : int_range z -> wrap_int z = z.
Proof.
  unfold int_range, int_min, int_max, wrap_int. intros Hz.
  rewrite Z.mod_small; lia.
Qed.

(** The guarded increment of [Invoke] never wraps around. *)
Lemma incr_below_max (a m : Z) :
  int_range a -> int_range m -> a < m -> wrap_int (a + 1) = a + 1.
Proof.
  intros Ha Hm Hlt. apply wrap_int_id.
  unfold int_range in *. lia.
Qed.

Lemma invokeerror_code_eq_dec (c : invokeerror.ErrorCode) :
  {c = invokeerror.TransientError} + {c <> invokeerror.TransientError}.
Proof. destruct c; [left; reflexivity | right; discriminate ..]. Qed.

(** ** One call of [doInvoke] and of [Invoke] *)

Section InvokeTask.

Import invoketask.

Ltac go_unfold :=
  cbv [bind ret ask get emit modify panic this update ExecuteTxWithOpts
       select_commit SubmitDelayed call_callback Debugf Logger_Errorf].

(** The cases of the switch on the validation code. *)
Lemma code_cases (code : pb.TxValidationCode) :
  code = pb.TxValidationCode_VALID \/
  (code = pb.TxValidationCode_DUPLICATE_TXID \/
   code = pb.TxValidationCode_MVCC_READ_CONFLICT \/
   code = pb.TxValidationCode_PHANTOM_READ_CONFLICT) \/
  (code <> pb.TxValidationCode_VALID /\
   code <> pb.TxValidationCode_DUPLICATE_TXID /\
   code <> pb.TxValidationCode_MVCC_READ_CONFLICT /\
   code <> pb.TxValidationCode_PHANTOM_READ_CONFLICT).
Proof.
  unfold pb.TxValidationCode_VALID, pb.TxValidationCode_DUPLICATE_TXID,
    pb.TxValidationCode_MVCC_READ_CONFLICT,
    pb.TxValidationCode_PHANTOM_READ_CONFLICT.
  lia.
Qed.

Lemma conflict_test (code : pb.TxValidationCode) :
  code = pb.TxValidationCode_DUPLICATE_TXID \/
  code = pb.TxValidationCode_MVCC_READ_CONFLICT \/
  code = pb.TxValidationCode_PHANTOM_READ_CONFLICT ->
  (code =? pb.TxValidationCode_VALID) = false /\
  (code =? pb.TxValidationCode_DUPLICATE_TXID)
  || (code =? pb.TxValidationCode_MVCC_READ_CONFLICT)
  || (code =? pb.TxValidationCode_PHANTOM_READ_CONFLICT) = true.
Proof.
  intros [H|[H|H]]; subst code; split; reflexivity.
Qed.

Lemma other_test (code : pb.TxValidationCode) :
  code <> pb.TxValidationCode_DUPLICATE_TXID ->
  code <> pb.TxValidationCode_MVCC_READ_CONFLICT ->
  code <> pb.TxValidationCode_PHANTOM_READ_CONFLICT ->
  (code =? pb.TxValidationCode_DUPLICATE_TXID)
  || (code =? pb.TxValidationCode_MVCC_READ_CONFLICT)
  || (code =? pb.TxValidationCode_PHANTOM_READ_CONFLICT) = false.
Proof.
  intros Hd Hm Hp.
  apply Z.eqb_neq in Hd, Hm, Hp. rewrite Hd, Hm, Hp. reflexivity.
Qed.

(** What [doInvoke] does, by cases on the environment: the submission
    fails, the wait times out, or a notification arrives. *)
Lemma doInvoke_submit_error env w txn e0 :
  execute_result env = (txn, Some e0) ->
  exists tr,
    doInvoke env w
    = (Some (Some (Errorf invokeerror.TransientError
                     "SendTransactionProposal return error: %v"
                     [ArgError e0])), w, tr)
    /\ callbacks tr = [] /\ submissions tr = [] /\ commit_waits tr = 0%nat
    /\ executions tr = 1%nat.
Proof.
  intros Hex. unfold doInvoke. go_unfold. rewrite Hex. cbn.
  eexists. split; [reflexivity|]. cbn. auto.
Qed.

Lemma doInvoke_submitted env w txn :
  execute_result env = (txn, None) ->
  exists r tr,
    doInvoke env w
    = (Some r, {| self := set_txID (ID txn) (self w);
                  scheduled := scheduled w |}, tr)
    /\ callbacks tr = [] /\ submissions tr = [] /\ commit_waits tr = 1%nat
    /\ executions tr = 1%nat
    /\ match select_result env with
       | None =>
           r = Some (Errorf invokeerror.TimeoutOnCommit
                       "timed out waiting to receive block event for TxID [%s]"
                       [ArgString (ID txn)])
       | Some s =>
           let code := TxValidationCode s in
           (code = pb.TxValidationCode_VALID -> r = None) /\
           (code = pb.TxValidationCode_DUPLICATE_TXID \/
            code = pb.TxValidationCode_MVCC_READ_CONFLICT \/
            code = pb.TxValidationCode_PHANTOM_READ_CONFLICT ->
            r = Some (Wrapf invokeerror.TransientError (Error s)
                        "invoke Error received from eventhub for TxID [%s]. Code: %s"
                        [ArgString (ID txn); ArgCode code])) /\
           (code <> pb.TxValidationCode_VALID ->
            code <> pb.TxValidationCode_DUPLICATE_TXID ->
            code <> pb.TxValidationCode_MVCC_READ_CONFLICT ->
            code <> pb.TxValidationCode_PHANTOM_READ_CONFLICT ->
            r = Some (Wrapf invokeerror.PersistentError (Error s)
                        "invoke Error received from eventhub for TxID [%s]. Code: %s"
                        [ArgString (ID txn); ArgCode code]))
       end.
Proof.
  intros Hex. unfold doInvoke. go_unfold. rewrite Hex. cbn.
  destruct (select_result env) as [s|]; cbn.
  - destruct (code_cases (TxValidationCode s)) as [H|[H|(Hv & Hd & Hm & Hp)]].
    + rewrite H. cbn. do 2 eexists. split; [reflexivity|]. cbn.
      repeat split; auto; intros; try reflexivity; try discriminate;
        try contradiction.
      destruct H0 as [H0|[H0|H0]]; discriminate.
    + destruct (conflict_test _ H) as [H1 H2]. rewrite H1, H2. cbn.
      do 2 eexists. split; [reflexivity|]. cbn.
      repeat split; auto; intros; try reflexivity.
      * apply Z.eqb_neq in H1. contradiction.
      * destruct H as [H|[H|H]]; contradiction.
    + pose proof Hv as Hv'. apply Z.eqb_neq in Hv'.
      rewrite Hv', (other_test _ Hd Hm Hp). cbn.
      do 2 eexists. split; [reflexivity|]. cbn.
      repeat split; auto; intros; try reflexivity; try contradiction.
      destruct H as [H|[H|H]]; contradiction.
  - do 2 eexists. split; [reflexivity|]. cbn. auto 10.
Qed.

(** [doInvoke] returns, leaves the queue alone, and changes at most the
    transaction id of the task. *)
Lemma doInvoke_frame env w :
  exists r t' tr,
    doInvoke env w = (Some r, {| self := t'; scheduled := scheduled w |}, tr)
    /\ callbacks tr = [] /\ submissions tr = []
    /\ same_fixed_fields (self w) t'
    /\ attempt t' = attempt (self w) /\ lastErr t' = lastErr (self w).
Proof.
  destruct (execute_result env) as [txn [e0|]] eqn:Hex.
  - destruct (doInvoke_submit_error env w txn e0 Hex) as (tr & H & Hc & Hs & _).
    exists (Some (Errorf invokeerror.TransientError
                    "SendTransactionProposal return error: %v"
                    [ArgError e0])), (self w), tr.
    destruct w as [t q]. cbn in *.
    repeat split; auto.
  - destruct (doInvoke_submitted env w txn Hex) as (r & tr & H & Hc & Hs & _).
    exists r, (set_txID (ID txn) (self w)), tr.
    repeat split; auto.
Qed.

(** What [doInvoke] returns does not depend on the task. *)
Lemma outcome_indep env w w' : outcome env w = outcome env w'.
Proof.
  unfold outcome.
  destruct (execute_result env) as [txn [e0|]] eqn:Hex.
  - destruct (doInvoke_submit_error env w txn e0 Hex) as (tr & H & _).
    destruct (doInvoke_submit_error env w' txn e0 Hex) as (tr' & H' & _).
    rewrite H, H'. reflexivity.
  - destruct (doInvoke_submitted env w txn Hex) as (r & tr & H & _ & _ & _ & _ & Hr).
    destruct (doInvoke_submitted env w' txn Hex)
      as (r' & tr' & H' & _ & _ & _ & _ & Hr').
    rewrite H, H'. cbn.
    destruct (select_result env) as [s|]; [|congruence].
    cbn in Hr, Hr'. destruct Hr as (Hv & Hc & Ho), Hr' as (Hv' & Hc' & Ho').
    destruct (code_cases (TxValidationCode s)) as [E|[E|(E1 & E2 & E3 & E4)]].
    + rewrite (Hv E), (Hv' E). reflexivity.
    + rewrite (Hc E), (Hc' E). reflexivity.
    + rewrite (Ho E1 E2 E3 E4), (Ho' E1 E2 E3 E4). reflexivity.
Qed.

Lemma outcome_yields env w r : outcome env w = Some r -> yields env r.
Proof. intros H w'. rewrite (outcome_indep env w' w). exact H. Qed.

(** Every error of [doInvoke] carries a classification code. *)
Lemma doInvoke_classified env w e :
  outcome env w = Some (Some e) -> exists c, ErrorCode e = Some c.
Proof.
  unfold outcome.
  destruct (execute_result env) as [txn [e0|]] eqn:Hex.
  - destruct (doInvoke_submit_error env w txn e0 Hex) as (tr & H & _).
    rewrite H. cbn. intros [= <-]. eexists. reflexivity.
  - destruct (doInvoke_submitted env w txn Hex)
      as (r & tr & H & _ & _ & _ & _ & Hr).
    rewrite H. cbn. intros [= ->].
    destruct (select_result env) as [s|].
    + cbn in Hr. destruct Hr as (Hv & Hc & Ho).
      destruct (code_cases (TxValidationCode s))
        as [E|[E|(E1 & E2 & E3 & E4)]].
      * discriminate (Hv E).
      * injection (Hc E) as ->. eexists. reflexivity.
      * injection (Ho E1 E2 E3 E4) as ->. eexists. reflexivity.
    + injection Hr as ->. eexists. reflexivity.
Qed.

(** [doInvoke] logs at debug level only. *)
Lemma doInvoke_quiet env w : logged_errors (snd (doInvoke env w)) = [].
Proof.
  unfold doInvoke. go_unfold.
  destruct (execute_result env) as [txn [e0|]]; cbn; [reflexivity|].
  destruct (select_result env) as [s|]; cbn; [|reflexivity].
  destruct (TxValidationCode s =? pb.TxValidationCode_VALID); cbn;
    [reflexivity|].
  destruct ((TxValidationCode s =? pb.TxValidationCode_DUPLICATE_TXID)
            || (TxValidationCode s =? pb.TxValidationCode_MVCC_READ_CONFLICT)
            || (TxValidationCode s =? pb.TxValidationCode_PHANTOM_READ_CONFLICT));
    cbn; reflexivity.
Qed.

(** [Invoke] after a successful attempt. *)
Lemma Invoke_success env w w1 tr1 :
  doInvoke env w = (Some None, w1, tr1) ->
  Invoke env w
  = (Some tt, w1,
     tr1 ++ [EvLog Debug "(%s) - Successfully invoked chaincode\n"
               [ArgString (id (self w1))];
             EvCallback (callback (self w1)) None]).
Proof.
  intros H. unfold Invoke. unfold bind at 1. rewrite H.
  go_unfold. cbn. reflexivity.
Qed.

(** [Invoke] after a transient failure of the last allowed attempt. *)
Lemma Invoke_give_up env w w1 tr1 e :
  doInvoke env w = (Some (Some e), w1, tr1) ->
  ErrorCode e = Some invokeerror.TransientError ->
  maxAttempts (self w1) <= attempt (self w1) ->
  exists logs,
    Invoke env w
    = (Some tt,
       {| self := set_lastErr (Some e) (self w1);
          scheduled := scheduled w1 |},
       tr1 ++ logs ++ [EvCallback (callback (self w1)) (Some e)])
    /\ callbacks logs = [] /\ submissions logs = []
    /\ commit_waits logs = 0%nat.
Proof.
  intros H Hc Hge. unfold Invoke. unfold bind at 1. rewrite H.
  go_unfold. cbn. rewrite Hc. cbn -[Z.ltb wrap_int Z.add].
  apply Z.ltb_ge in Hge. rewrite Hge. cbn.
  eexists [_]. split; [reflexivity|]. repeat split; reflexivity.
Qed.

(** [Invoke] after a transient failure with attempts left: the counter is
    incremented and the executor is asked to run the task again. *)
Lemma Invoke_resubmit env w w1 tr1 e :
  doInvoke env w = (Some (Some e), w1, tr1) ->
  ErrorCode e = Some invokeerror.TransientError ->
  attempt (self w1) < maxAttempts (self w1) ->
  Invoke env w
  = (Some tt,
     {| self := set_attempt (wrap_int (attempt (self w1) + 1))
                  (set_lastErr (Some e) (self w1));
        scheduled := match submit_delayed_result env with
                     | None => scheduled w1 ++ [resubmitDelay (self w1)]
                     | Some _ => scheduled w1
                     end |},
     tr1 ++
     [EvLog Debug "(%s) - Error invoking chaincode: %s. Resubmitting ...\n"
        [ArgString (id (self w1)); ArgError e];
      EvSubmitDelayed (executor (self w1)) (id (self w1))
        (resubmitDelay (self w1)) (submit_delayed_result env)] ++
     match submit_delayed_result env with
     | None => []
     | Some e' => [EvLog Err "error submitting task: %s" [ArgError e']]
     end).
Proof.
  intros H Hc Hlt. unfold Invoke. unfold bind at 1. rewrite H.
  go_unfold. cbn. rewrite Hc. cbn -[Z.ltb wrap_int Z.add].
  apply Z.ltb_lt in Hlt. rewrite Hlt. cbn.
  destruct (submit_delayed_result env); cbn; reflexivity.
Qed.

(** [Invoke] on an error that does not implement [invokeerror.Error]: the
    type assertion panics. *)
Lemma Invoke_foreign env w w1 tr1 e :
  doInvoke env w = (Some (Some e), w1, tr1) ->
  ErrorCode e = None ->
  fst (fst (Invoke env w)) = None.
Proof.
  intros H Hc. unfold Invoke. unfold bind at 1. rewrite H.
  go_unfold. cbn. rewrite Hc. reflexivity.
Qed.

(** One call of [Invoke], summed up: it returns, and either ends the run
    with the callback as its last action, or (transient failure with
    attempts left) increments the counter and calls the executor. *)
Lemma Invoke_step env w :
  exists r w' tr,
    outcome env w = Some r
    /\ Invoke env w = (Some tt, w', tr)
    /\ same_fixed_fields (self w) (self w')
    /\ match r with
       | None =>
           scheduled w' = scheduled w
           /\ attempt (self w') = attempt (self w)
           /\ lastErr (self w') = lastErr (self w)
           /\ exists pre,
               tr = pre ++ [EvCallback (callback (self w)) None]
               /\ callbacks pre = [] /\ submissions pre = []
               /\ logged_errors pre = []
       | Some e =>
           lastErr (self w') = Some e
           /\ exists c,
               ErrorCode e = Some c
               /\ ((c <> invokeerror.TransientError \/
                    maxAttempts (self w) <= attempt (self w))
                   /\ scheduled w' = scheduled w
                   /\ attempt (self w') = attempt (self w)
                   /\ (exists pre,
                         tr = pre ++ [EvCallback (callback (self w)) (Some e)]
                         /\ callbacks pre = [] /\ submissions pre = []
                         /\ logged_errors pre = [])
                   \/
                   c = invokeerror.TransientError
                   /\ attempt (self w) < maxAttempts (self w)
                   /\ attempt (self w') = wrap_int (attempt (self w) + 1)
                   /\ scheduled w'
                      = match submit_delayed_result env with
                        | None => scheduled w ++ [resubmitDelay (self w)]
                        | Some _ => scheduled w
                        end
                   /\ callbacks tr = []
                   /\ submissions tr = [submit_delayed_result env]
                   /\ logged_errors tr
                      = match submit_delayed_result env with
                        | None => []
                        | Some e' =>
                            [("error submitting task: %s", [ArgError e'])]
                        end)
       end.
Proof.
  destruct (doInvoke_frame env w)
    as (r & t1 & tr1 & Hdo & Hcb & Hsub & Hfix & Hatt & Hlast).
  pose proof (doInvoke_quiet env w) as Hq. rewrite Hdo in Hq. cbn in Hq.
  assert (Hout : outcome env w = Some r) by (unfold outcome; rewrite Hdo; reflexivity).
  exists r.
  assert (Hcbk : callback t1 = callback (self w)) by apply Hfix.
  assert (Hmax : maxAttempts t1 = maxAttempts (self w)) by apply Hfix.
  destruct r as [e|].
  - destruct (doInvoke_classified env w e Hout) as [c Hc].
    assert (Hterm :
      c <> invokeerror.TransientError \/
      maxAttempts (self w) <= attempt (self w) ->
      exists w' tr,
        Invoke env w = (Some tt, w', tr)
        /\ self w' = set_lastErr (Some e) t1
        /\ scheduled w' = scheduled w
        /\ exists pre,
            tr = pre ++ [EvCallback (callback (self w)) (Some e)]
            /\ callbacks pre = [] /\ submissions pre = []
            /\ logged_errors pre = []).
    { intros Hcase.
      assert (Hinv : exists logs,
        Invoke env w
        = (Some tt,
           {| self := set_lastErr (Some e) t1; scheduled := scheduled w |},
           tr1 ++ logs ++ [EvCallback (callback t1) (Some e)])
        /\ callbacks logs = [] /\ submissions logs = []
        /\ logged_errors logs = []).
      { destruct (invokeerror_code_eq_dec c) as [Ht|Ht].
        - destruct Hcase as [Hcase|Hcase]; [contradiction|]. subst c.
          unfold Invoke. unfold bind at 1. rewrite Hdo.
          go_unfold. cbn. rewrite Hc. cbn -[Z.ltb wrap_int Z.add].
          rewrite Hatt, Hmax.
          apply Z.ltb_ge in Hcase. rewrite Hcase. cbn.
          eexists [_]. split; [reflexivity|]. repeat split; reflexivity.
        - unfold Invoke. unfold bind at 1. rewrite Hdo.
          go_unfold. cbn. rewrite Hc.
          destruct c; [contradiction| |]; cbn.
          + eexists [_]. split; [reflexivity|]. repeat split; reflexivity.
          + exists []. split; [reflexivity|]. repeat split; reflexivity. }
      destruct Hinv as (logs & Hinv & Hl1 & Hl2 & Hl3).
      do 2 eexists. split; [exact Hinv|]. cbn.
      split; [reflexivity|]. split; [reflexivity|].
      exists (tr1 ++ logs). rewrite <- app_assoc, Hcbk.
      split; [reflexivity|].
      rewrite callbacks_app, submissions_app, logged_errors_app,
        Hcb, Hsub, Hq, Hl1, Hl2, Hl3.
      repeat split; reflexivity. }
    destruct (invokeerror_code_eq_dec c) as [Ht|Ht];
      [destruct (Z_lt_le_dec (attempt (self w)) (maxAttempts (self w)))
         as [Hlt|Hge]|].
    + subst c.
      assert (Hlt1 : attempt (self {| self := t1; scheduled := scheduled w |})
                     < maxAttempts (self {| self := t1; scheduled := scheduled w |}))
        by (cbn; lia).
      do 2 eexists. split; [exact Hout|].
      split; [exact (Invoke_resubmit env w _ tr1 e Hdo Hc Hlt1)|].
      cbn -[wrap_int Z.add].
      split; [destruct Hfix as (?&?&?&?&?&?&?&?&?&?);
              repeat split; assumption|].
      split; [reflexivity|].
      exists invokeerror.TransientError. split; [assumption|]. right.
      assert (Hdelay : resubmitDelay t1 = resubmitDelay (self w))
        by apply Hfix.
      rewrite Hatt, Hdelay.
      repeat split; try assumption; try reflexivity.
      * rewrite callbacks_app, Hcb.
        destruct (submit_delayed_result env); reflexivity.
      * rewrite submissions_app, Hsub.
        destruct (submit_delayed_result env); reflexivity.
      * rewrite logged_errors_app, Hq.
        destruct (submit_delayed_result env); reflexivity.
    + destruct (Hterm (or_intror Hge)) as (w' & tr & Hinv & Hself & Hsch & Hpre).
      exists w', tr. split; [exact Hout|]. split; [exact Hinv|].
      rewrite Hself. cbn.
      split; [destruct Hfix as (?&?&?&?&?&?&?&?&?&?);
              repeat split; assumption|].
      split; [reflexivity|].
      exists c. split; [assumption|]. left. auto.
    + destruct (Hterm (or_introl Ht)) as (w' & tr & Hinv & Hself & Hsch & Hpre).
      exists w', tr. split; [exact Hout|]. split; [exact Hinv|].
      rewrite Hself. cbn.
      split; [destruct Hfix as (?&?&?&?&?&?&?&?&?&?);
              repeat split; assumption|].
      split; [reflexivity|].
      exists c. split; [assumption|]. left. auto.
  - do 2 eexists. split; [exact Hout|].
    split; [exact (Invoke_success env w _ tr1 Hdo)|]. cbn.
    split; [exact Hfix|].
    repeat split; try assumption; try reflexivity.
    eexists (tr1 ++ [_]). rewrite <- app_assoc, Hcbk.
    split; [reflexivity|].
    rewrite callbacks_app, submissions_app, logged_errors_app, Hcb, Hsub, Hq.
    repeat split; reflexivity.
Qed.

End InvokeTask.

(** ** The executor's loop *)

Lemma failed_of_submissions (tr : Trace) :
  failed_submissions tr
  = flat_map (fun r : option error =>
                match r with Some e => [e] | None => [] end)
      (submissions tr).
Proof.
  induction tr as [|ev tr IH]; [reflexivity|].
  destruct ev as [| | | |? ? ? [e|]|]; cbn; rewrite ?IH; reflexivity.
Qed.

Section Executor.

Import invoketask.

Variable envs : nat -> Env.

Lemma drain_done fuel k w tr :
  scheduled w = [] -> drain fuel envs k w tr = Finished w tr k.
Proof. intros H. destruct fuel; cbn; rewrite H; reflexivity. Qed.

Lemma drain_pop fuel k w d rest tr w1 tr1 :
  scheduled w = d :: rest ->
  Invoke (envs k) {| self := self w; scheduled := rest |}
  = (Some tt, w1, tr1) ->
  drain (S fuel) envs k w tr = drain fuel envs (S k) w1 (tr ++ tr1).
Proof. intros Hq Hinv. cbn. rewrite Hq, Hinv. reflexivity. Qed.

(** A resubmission keeps the task well formed and uses up one of the
    attempts that are left. *)
Lemma resubmit_wf (t t' : Task) :
  wf_task t ->
  attempt t < maxAttempts t ->
  maxAttempts t' = maxAttempts t ->
  attempt t' = wrap_int (attempt t + 1) ->
  wf_task t' /\ attempt t' = attempt t + 1.
Proof.
  intros [Ha Hm] Hlt Hmax Hatt.
  rewrite (incr_below_max _ _ Ha Hm Hlt) in Hatt.
  unfold wf_task. rewrite Hmax, Hatt.
  unfold int_range in *. repeat split; lia.
Qed.

Lemma same_fixed_fields_trans (t1 t2 t3 : Task) :
  same_fixed_fields t1 t2 -> same_fixed_fields t2 t3 ->
  same_fixed_fields t1 t3.
Proof.
  unfold same_fixed_fields.
  intros (?&?&?&?&?&?&?&?&?&?) (?&?&?&?&?&?&?&?&?&?).
  repeat split; congruence.
Qed.

(** The loop ends, and by then either the callback was invoked once and no
    scheduling call failed, or one scheduling call failed and the callback
    was not invoked. *)
Lemma drain_total fuel :
  forall k w d tr,
    scheduled w = [d] ->
    wf_task (self w) ->
    (Z.to_nat (maxAttempts (self w) - attempt (self w)) < fuel)%nat ->
    exists w' tr' n,
      drain fuel envs k w tr = Finished w' (tr ++ tr') n
      /\ scheduled w' = []
      /\ same_fixed_fields (self w) (self w')
      /\ (k < n)%nat
      /\ ((exists r, callbacks tr' = [r] /\ failed_submissions tr' = [])
          \/ (callbacks tr' = [] /\
              exists e, failed_submissions tr' = [e])).
Proof.
  induction fuel as [|fuel IH]; intros k w d tr Hq Hwf Hfuel; [lia|].
  destruct (Invoke_step (envs k) {| self := self w; scheduled := [] |})
    as (r & w1 & tr1 & Hout & Hinv & Hfix & Hr).
  rewrite (drain_pop fuel k w d [] tr w1 tr1 Hq Hinv).
  cbn [self scheduled] in Hfix, Hr.
  assert (Hend :
    scheduled w1 = [] ->
    (exists r', callbacks tr1 = [r'] /\ failed_submissions tr1 = []) \/
    (callbacks tr1 = [] /\ exists e, failed_submissions tr1 = [e]) ->
    exists w' tr' n,
      drain fuel envs (S k) w1 (tr ++ tr1) = Finished w' (tr ++ tr') n
      /\ scheduled w' = []
      /\ same_fixed_fields (self w) (self w')
      /\ (k < n)%nat
      /\ ((exists r, callbacks tr' = [r] /\ failed_submissions tr' = [])
          \/ (callbacks tr' = [] /\
              exists e, failed_submissions tr' = [e]))).
  { intros Hq1 Hcount. exists w1, tr1, (S k).
    rewrite (drain_done fuel (S k) w1 _ Hq1). auto 10. }
  assert (Hcb_end : forall pre cb r',
    tr1 = pre ++ [EvCallback cb r'] ->
    callbacks pre = [] -> submissions pre = [] ->
    (exists r', callbacks tr1 = [r'] /\ failed_submissions tr1 = [])).
  { intros pre cb r' -> Hc Hs. exists r'.
    rewrite callbacks_app, failed_submissions_app, Hc.
    rewrite (failed_of_submissions pre), Hs. split; reflexivity. }
  destruct r as [e|].
  - destruct Hr as (Hlast & c & Hc & [Hfin|Hre]).
    + destruct Hfin as (_ & Hq1 & _ & pre & Htr & Hc1 & Hs1 & _).
      apply Hend; [exact Hq1|]. left. eapply Hcb_end; eassumption.
    + destruct Hre as (-> & Hlt & Hatt & Hq1 & Hcb & Hsub & Hlog).
      destruct (submit_delayed_result (envs k)) as [e'|] eqn:Hsdr.
      * apply Hend; [exact Hq1|]. right. split; [exact Hcb|].
        exists e'. rewrite failed_of_submissions, Hsub. reflexivity.
      * assert (Hmax : maxAttempts (self w1) = maxAttempts (self w))
          by apply Hfix.
        destruct (resubmit_wf _ _ Hwf Hlt Hmax Hatt) as [Hwf1 Hatt1].
        destruct (IH (S k) w1 (resubmitDelay (self w)) (tr ++ tr1) Hq1 Hwf1)
          as (w' & tr' & n & Hrun & Hq' & Hfix' & Hn & Hcount).
        { rewrite Hmax, Hatt1. lia. }
        exists w', (tr1 ++ tr'), n.
        rewrite app_assoc. split; [exact Hrun|].
        split; [exact Hq'|].
        split; [exact (same_fixed_fields_trans _ _ _ Hfix Hfix')|].
        split; [lia|].
        rewrite callbacks_app, failed_submissions_app, Hcb.
        rewrite (failed_of_submissions tr1), Hsub. exact Hcount.
  - destruct Hr as (Hq1 & _ & _ & pre & Htr & Hc1 & Hs1 & _).
    apply Hend; [exact Hq1|]. left. eapply Hcb_end; eassumption.
Qed.

(** A run of [m] attempts that all fail with a transient error while
    attempts are left: either some scheduling call fails, and the run ends
    there without a callback, or all [m] resubmissions take place and the
    loop goes on with the counter [m] higher. *)
Lemma drain_transients (m : nat) :
  forall k w d,
    scheduled w = [d] ->
    wf_task (self w) ->
    attempt (self w) + Z.of_nat m <= maxAttempts (self w) ->
    (forall i, (i < m)%nat ->
               fails_with (envs (k + i)) invokeerror.TransientError) ->
    (exists i w' tr',
        (i < m)%nat
        /\ submit_delayed_result (envs (k + i)) <> None
        /\ callbacks tr' = []
        /\ forall fuel tr,
             drain (m + fuel) envs k w tr
             = Finished w' (tr ++ tr') (k + S i))
    \/
    ((forall i, (i < m)%nat -> submit_delayed_result (envs (k + i)) = None)
     /\ exists w' tr' d',
         scheduled w' = [d']
         /\ same_fixed_fields (self w) (self w')
         /\ attempt (self w') = attempt (self w) + Z.of_nat m
         /\ callbacks tr' = []
         /\ failed_submissions tr' = []
         /\ logged_errors tr' = []
         /\ forall fuel tr,
              drain (m + fuel) envs k w tr
              = drain fuel envs (k + m) w' (tr ++ tr')).
Proof.
  induction m as [|m IH]; intros k w d Hq Hwf Hle Htrans.
  - right. split; [intros i Hi; lia|].
    exists w, [], d.
    repeat split; try reflexivity; try assumption; try lia.
    intros fuel tr. rewrite app_nil_r, Nat.add_0_r. reflexivity.
  - destruct (Invoke_step (envs k) {| self := self w; scheduled := [] |})
      as (r & w1 & tr1 & Hout & Hinv & Hfix & Hr).
    cbn [self scheduled] in Hfix, Hr.
    destruct (Htrans 0%nat ltac:(lia)) as (e & Hy & He).
    rewrite Nat.add_0_r in Hy. rewrite Hy in Hout.
    injection Hout as <-.
    destruct Hr as (Hlast & c & Hc & [Hfin|Hre]).
    { destruct Hfin as ([Hnt|Hge] & _); [congruence|lia]. }
    destruct Hre as (-> & Hlt & Hatt & Hq1 & Hcb & Hsub & Hlog).
    assert (Hmax : maxAttempts (self w1) = maxAttempts (self w))
      by apply Hfix.
    destruct (resubmit_wf _ _ Hwf Hlt Hmax Hatt) as [Hwf1 Hatt1].
    destruct (submit_delayed_result (envs k)) as [e'|] eqn:Hsdr.
    + left. exists 0%nat, w1, tr1.
      split; [lia|]. rewrite Nat.add_0_r, Hsdr.
      split; [discriminate|]. split; [exact Hcb|].
      intros fuel tr. cbn [Nat.add].
      rewrite (drain_pop (m + fuel) k w d [] tr w1 tr1 Hq Hinv).
      rewrite (drain_done _ (S k) w1 _ Hq1).
      f_equal. lia.
    + destruct (IH (S k) w1 (resubmitDelay (self w)) Hq1 Hwf1)
        as [(i & w' & tr' & Hi & Hfail & Hcb' & Hrun)
           |(Hok & w' & tr' & d' & Hq' & Hfix' & Hatt' & Hcb' & Hfs' & Hle'
             & Hrun)].
      { rewrite Hmax, Hatt1. lia. }
      { intros i Hi. replace (S k + i)%nat with (k + S i)%nat by lia.
        apply Htrans. lia. }
      * left. exists (S i), w', (tr1 ++ tr').
        split; [lia|].
        replace (k + S i)%nat with (S k + i)%nat by lia.
        split; [exact Hfail|].
        split; [rewrite callbacks_app, Hcb, Hcb'; reflexivity|].
        intros fuel tr. cbn [Nat.add].
        rewrite (drain_pop (m + fuel) k w d [] tr w1 tr1 Hq Hinv).
        rewrite Hrun, app_assoc. f_equal. lia.
      * right. split.
        { intros [|i] Hi.
          - rewrite Nat.add_0_r. exact Hsdr.
          - replace (k + S i)%nat with (S k + i)%nat by lia.
            apply Hok. lia. }
        exists w', (tr1 ++ tr'), d'.
        split; [exact Hq'|].
        split; [exact (same_fixed_fields_trans _ _ _ Hfix Hfix')|].
        split; [rewrite Hatt', Hatt1; lia|].
        split; [rewrite callbacks_app, Hcb, Hcb'; reflexivity|].
        split.
        { rewrite failed_submissions_app, Hfs'.
          rewrite (failed_of_submissions tr1), Hsub. reflexivity. }
        split; [rewrite logged_errors_app, Hlog, Hle'; reflexivity|].
        intros fuel tr. cbn [Nat.add].
        rewrite (drain_pop (m + fuel) k w d [] tr w1 tr1 Hq Hinv).
        rewrite Hrun, app_assoc. f_equal. lia.
Qed.

(** The step in which the executor refuses the resubmission: the loop
    ends with this call of [Invoke], the refusal is logged and the
    callback is not invoked. *)
Lemma drain_orphan k w d e' :
  scheduled w = [d] ->
  fails_with (envs k) invokeerror.TransientError ->
  attempt (self w) < maxAttempts (self w) ->
  submit_delayed_result (envs k) = Some e' ->
  exists w' tr',
    scheduled w' = []
    /\ callbacks tr' = []
    /\ failed_submissions tr' = [e']
    /\ logged_errors tr' = [("error submitting task: %s", [ArgError e'])]
    /\ forall fuel tr,
         drain (S fuel) envs k w tr = Finished w' (tr ++ tr') (S k).
Proof.
  intros Hq (e & Hy & He) Hlt Hsdr.
  destruct (Invoke_step (envs k) {| self := self w; scheduled := [] |})
    as (r & w1 & tr1 & Hout & Hinv & Hfix & Hr).
  cbn [self scheduled] in Hfix, Hr.
  rewrite Hy in Hout. injection Hout as <-.
  destruct Hr as (_ & c & Hc & [Hfin|Hre]).
  { destruct Hfin as ([Hnt|Hge] & _); [congruence|lia]. }
  destruct Hre as (-> & _ & _ & Hq1 & Hcb & Hsub & Hlog).
  rewrite Hsdr in Hq1, Hsub, Hlog.
  exists w1, tr1.
  split; [exact Hq1|]. split; [exact Hcb|].
  split; [rewrite failed_of_submissions, Hsub; reflexivity|].
  split; [exact Hlog|].
  intros fuel tr.
  rewrite (drain_pop fuel k w d [] tr w1 tr1 Hq Hinv).
  apply drain_done. exact Hq1.
Qed.

(** The first [m] attempts of a task that has exactly [m] resubmissions
    left, when all of them fail with a transient error: either a
    scheduling call fails and the run ends early, without a callback, or
    the run comes to its last allowed attempt. *)
Lemma run_to_last_attempt (t : Task) (m : nat) :
  wf_task t ->
  attempt t + Z.of_nat m = maxAttempts t ->
  (forall i, (i < m)%nat -> fails_with (envs i) invokeerror.TransientError) ->
  (exists i w' tr',
      (i < m)%nat
      /\ submit_delayed_result (envs i) <> None
      /\ callbacks tr' = []
      /\ run envs t = Finished w' tr' (S i))
  \/
  ((forall i, (i < m)%nat -> submit_delayed_result (envs i) = None)
   /\ exists w' tr' d',
       scheduled w' = [d']
       /\ same_fixed_fields t (self w')
       /\ attempt (self w') = maxAttempts t
       /\ callbacks tr' = []
       /\ run envs t = drain 1 envs m w' tr').
Proof.
  intros Hwf Hm Htrans.
  assert (Hfuel : fuel_for t = (m + 1)%nat) by (unfold fuel_for; lia).
  unfold run. rewrite Hfuel.
  destruct (drain_transients m 0 (submit t) 0 eq_refl Hwf)
    as [(i & w' & tr' & Hi & Hfail & Hcb & Hrun)
       |(Hok & w' & tr' & d' & Hq & Hfix & Hatt & Hcb & _ & _ & Hrun)].
  - cbn [self submit]. lia.
  - exact Htrans.
  - left. exists i, w', tr'. rewrite Hrun. auto.
  - right. split; [exact Hok|].
    exists w', tr', d'. rewrite Hrun. cbn [self submit] in *.
    repeat split; try assumption; try apply Hfix. lia.
Qed.

End Executor.

(** ** The claims about [invoketask] and [querytask] *)

Section Claims.

Import invoketask.

(** One run of the loop from a task that was just handed over: a single
    call of [Invoke] that empties the queue ends the run. *)
Lemma run_single envs t w1 tr1 :
  Invoke (envs 0%nat) {| self := t; scheduled := [] |} = (Some tt, w1, tr1) ->
  scheduled w1 = [] ->
  run envs t = Finished w1 tr1 1.
Proof.
  intros Hinv Hq. unfold run, fuel_for.
  rewrite (drain_pop envs _ 0 (submit t) 0 [] [] w1 tr1 eq_refl Hinv).
  rewrite (drain_done envs _ 1 w1 _ Hq). reflexivity.
Qed.

(** C2: a commit notification received before the timeout is classified
    by its validation code: VALID gives success (a nil error); each of
    DUPLICATE_TXID, MVCC_READ_CONFLICT and PHANTOM_READ_CONFLICT gives a
    TransientError; every other code gives a PersistentError. *)
Theorem C2_classification_by_validation_code
    (env : Env) (w : World) (txn : TransactionID) (s : ExecuteTxResponse) :
  execute_result env = (txn, None) ->
  select_result env = Some s ->
  let code := TxValidationCode s in
  (code = pb.TxValidationCode_VALID -> outcome env w = Some None)
  /\ (code = pb.TxValidationCode_DUPLICATE_TXID \/
      code = pb.TxValidationCode_MVCC_READ_CONFLICT \/
      code = pb.TxValidationCode_PHANTOM_READ_CONFLICT ->
      exists e, outcome env w = Some (Some e)
                /\ ErrorCode e = Some invokeerror.TransientError)
  /\ (code <> pb.TxValidationCode_VALID ->
      code <> pb.TxValidationCode_DUPLICATE_TXID ->
      code <> pb.TxValidationCode_MVCC_READ_CONFLICT ->
      code <> pb.TxValidationCode_PHANTOM_READ_CONFLICT ->
      exists e, outcome env w = Some (Some e)
                /\ ErrorCode e = Some invokeerror.PersistentError).
Proof.
  intros Hex Hsel code. unfold outcome.
  destruct (doInvoke_submitted env w txn Hex)
    as (r & tr & Hdo & _ & _ & _ & _ & Hr).
  rewrite Hdo, Hsel in *. cbn in Hr. cbn [fst].
  destruct Hr as (Hv & Hc & Ho).
  split; [|split].
  - intros E. rewrite (Hv E). reflexivity.
  - intros E. rewrite (Hc E). eexists. split; reflexivity.
  - intros E1 E2 E3 E4. rewrite (Ho E1 E2 E3 E4).
    eexists. split; reflexivity.
Qed.

Lemma C2_witness :
  outcome (Examples.env_code pb.TxValidationCode_VALID None)
    (submit (Examples.task 3)) = Some None
  /\ (exists e,
        outcome (Examples.env_code pb.TxValidationCode_MVCC_READ_CONFLICT None)
          (submit (Examples.task 3)) = Some (Some e)
        /\ ErrorCode e = Some invokeerror.TransientError)
  /\ (exists e,
        outcome
          (Examples.env_code pb.TxValidationCode_ENDORSEMENT_POLICY_FAILURE None)
          (submit (Examples.task 3)) = Some (Some e)
        /\ ErrorCode e = Some invokeerror.PersistentError).
Proof.
  split; [|split].
  - apply (C2_classification_by_validation_code
             (Examples.env_code pb.TxValidationCode_VALID None)
             (submit (Examples.task 3)) Examples.tx1 _ eq_refl eq_refl).
    reflexivity.
  - apply (C2_classification_by_validation_code
             (Examples.env_code pb.TxValidationCode_MVCC_READ_CONFLICT None)
             (submit (Examples.task 3)) Examples.tx1 _ eq_refl eq_refl).
    right. left. reflexivity.
  - apply (C2_classification_by_validation_code
             (Examples.env_code
                pb.TxValidationCode_ENDORSEMENT_POLICY_FAILURE None)
             (submit (Examples.task 3)) Examples.tx1 _ eq_refl eq_refl);
      discriminate.
Defined.

(** C5: an attempt classified as PersistentError or TimeoutOnCommit is
    never retried, whatever the attempt number and maxAttempts: [Invoke]
    makes no scheduling call and leaves the executor's queue alone, its
    last action is the callback with the classified error, and the
    attempt counter keeps its value.  In particular such a failure of the
    first attempt of a new task ends the run after one call of [Invoke],
    with Attempts() = 1. *)
Theorem C5_terminal_errors_not_retried
    (env : Env) (e : error) (c : invokeerror.ErrorCode) :
  yields env (Some e) ->
  ErrorCode e = Some c ->
  c = invokeerror.PersistentError \/ c = invokeerror.TimeoutOnCommit ->
  (forall w, exists w' pre,
      Invoke env w
      = (Some tt, w', pre ++ [EvCallback (callback (self w)) (Some e)])
      /\ callbacks pre = [] /\ submissions pre = []
      /\ scheduled w' = scheduled w
      /\ Attempts (self w') = Attempts (self w))
  /\ (forall envs id cl cc a ex n delay v p cb,
        envs 0%nat = env ->
        exists w' tr,
          run envs (New id cl cc a ex n delay v p cb) = Finished w' tr 1
          /\ callbacks tr = [Some e] /\ submissions tr = []
          /\ Attempts (self w') = 1).
Proof.
  intros Hy Hc Hterm.
  assert (Hstep : forall w, exists w' pre,
      Invoke env w
      = (Some tt, w', pre ++ [EvCallback (callback (self w)) (Some e)])
      /\ callbacks pre = [] /\ submissions pre = []
      /\ scheduled w' = scheduled w
      /\ Attempts (self w') = Attempts (self w)).
  { intros w.
    destruct (Invoke_step env w) as (r & w' & tr & Hout & Hinv & _ & Hr).
    rewrite (Hy w) in Hout. injection Hout as <-.
    destruct Hr as (_ & c' & Hc' & [Hfin|Hre]).
    - destruct Hfin as (_ & Hq & Hatt & pre & -> & Hcb & Hsub & _).
      exists w', pre. auto.
    - destruct Hre as (-> & _). rewrite Hc in Hc'.
      destruct Hterm; congruence. }
  split; [exact Hstep|].
  intros envs id0 cl cc a ex n delay v p cb Henv.
  set (t := New id0 cl cc a ex n delay v p cb).
  destruct (Hstep {| self := t; scheduled := [] |})
    as (w' & pre & Hinv & Hcb & Hsub & Hq & Hatt).
  rewrite <- Henv in Hinv.
  exists w', (pre ++ [EvCallback (callback t) (Some e)]).
  split; [exact (run_single envs t _ _ Hinv Hq)|].
  rewrite callbacks_app, submissions_app, Hcb, Hsub.
  repeat split; try reflexivity. exact Hatt.
Qed.

Lemma C5_witness :
  exists w' tr,
    run (fun _ => Examples.env_timeout) (Examples.task 1)
    = Finished w' tr 1
    /\ callbacks tr
       = [Some (Errorf invokeerror.TimeoutOnCommit
                  "timed out waiting to receive block event for TxID [%s]"
                  [ArgString "tx1"])]
    /\ submissions tr = []
    /\ Attempts (self w') = 1.
Proof.
  apply (C5_terminal_errors_not_retried Examples.env_timeout
           (Errorf invokeerror.TimeoutOnCommit
              "timed out waiting to receive block event for TxID [%s]"
              [ArgString "tx1"])
           invokeerror.TimeoutOnCommit).
  - intros w. reflexivity.
  - reflexivity.
  - right. reflexivity.
  - reflexivity.
Defined.

(** C6: when the submission call itself returns an error, the attempt is
    classified as a TransientError and enters the retry decision (a
    resubmission while attempts are left, the callback otherwise); no
    commit notification is waited for and the transaction id of the task
    is not set. *)
Theorem C6_submission_error_is_transient
    (env : Env) (w : World) (txn : TransactionID) (e0 : error) :
  execute_result env = (txn, Some e0) ->
  exists e,
    (exists tr,
        doInvoke env w = (Some (Some e), w, tr)
        /\ commit_waits tr = 0%nat)
    /\ ErrorCode e = Some invokeerror.TransientError
    /\ exists w' tr',
        Invoke env w = (Some tt, w', tr')
        /\ commit_waits tr' = 0%nat
        /\ txID (self w') = txID (self w)
        /\ if attempt (self w) <? maxAttempts (self w)
           then submissions tr' = [submit_delayed_result env]
                /\ callbacks tr' = []
           else submissions tr' = [] /\ callbacks tr' = [Some e].
Proof.
  intros Hex.
  destruct (doInvoke_submit_error env w txn e0 Hex)
    as (tr & Hdo & Hcb & Hsub & Hcw & _).
  eexists. split; [exists tr; split; [exact Hdo|exact Hcw]|].
  split; [reflexivity|].
  destruct (attempt (self w) <? maxAttempts (self w)) eqn:Hlt.
  - apply Z.ltb_lt in Hlt.
    rewrite (Invoke_resubmit env w w tr _ Hdo eq_refl Hlt).
    do 2 eexists. split; [reflexivity|]. cbn [self txID set_attempt set_lastErr].
    rewrite commit_waits_app, submissions_app, callbacks_app, Hcw, Hsub, Hcb.
    destruct (submit_delayed_result env); cbn; auto.
  - apply Z.ltb_ge in Hlt.
    destruct (Invoke_give_up env w w tr _ Hdo eq_refl Hlt)
      as (logs & Hinv & Hl1 & Hl2 & Hl3).
    rewrite Hinv. do 2 eexists. split; [reflexivity|].
    cbn [self txID set_lastErr].
    rewrite commit_waits_app, submissions_app, callbacks_app, Hcw, Hsub, Hcb.
    rewrite commit_waits_app, submissions_app, callbacks_app, Hl1, Hl2, Hl3.
    cbn. repeat split; reflexivity.
Qed.

Lemma C6_witness :
  exists e,
    (exists tr,
        doInvoke (Examples.env_submit_error None) (submit (Examples.task 3))
        = (Some (Some e), submit (Examples.task 3), tr)
        /\ commit_waits tr = 0%nat)
    /\ ErrorCode e = Some invokeerror.TransientError
    /\ exists w' tr',
        Invoke (Examples.env_submit_error None) (submit (Examples.task 3))
        = (Some tt, w', tr')
        /\ commit_waits tr' = 0%nat
        /\ txID (self w') = ""
        /\ submissions tr' = [None] /\ callbacks tr' = [].
Proof.
  exact (C6_submission_error_is_transient
           (Examples.env_submit_error None) (submit (Examples.task 3))
           {| ID := ""; Nonce := [] |} (ForeignError "connection refused")
           eq_refl).
Defined.

(** C9: a call of [Invoke] returns and leaves the id, the chaincode id,
    the arguments, maxAttempts, the resubmission delay, the callback, the
    verbose flag, the printer, the executor and the channel client of the
    task as they were: only the attempt counter, the last error and the
    transaction id may change, and the counter changes only by the
    increment of a resubmission after a transient failure. *)
Theorem C9_invoke_frame (env : Env) (w : World) :
  exists w' tr,
    Invoke env w = (Some tt, w', tr)
    /\ same_fixed_fields (self w) (self w')
    /\ (attempt (self w') = attempt (self w)
        \/ (attempt (self w') = wrap_int (attempt (self w) + 1)
            /\ fails_with env invokeerror.TransientError
            /\ attempt (self w) < maxAttempts (self w)
            /\ submissions tr = [submit_delayed_result env])).
Proof.
  destruct (Invoke_step env w) as (r & w' & tr & Hout & Hinv & Hfix & Hr).
  exists w', tr. split; [exact Hinv|]. split; [exact Hfix|].
  destruct r as [e|].
  - destruct Hr as (_ & c & Hc & [Hfin|Hre]).
    + left. apply Hfin.
    + destruct Hre as (-> & Hlt & Hatt & _ & _ & Hsub & _).
      right. repeat split; try assumption.
      exists e. split; [exact (outcome_yields env w _ Hout)|exact Hc].
  - left. apply Hr.
Qed.

(** C10: every non-nil error that [doInvoke] returns is an
    [invokeerror.Error] carrying one of the three classification codes;
    [doInvoke] does not panic, and neither does [Invoke]: its type
    assertion on the error always succeeds. *)
Theorem C10_type_assertion_succeeds (env : Env) (w : World) :
  match outcome env w with
  | Some (Some e) =>
      exists c,
        ErrorCode e = Some c
        /\ (c = invokeerror.TransientError \/
            c = invokeerror.PersistentError \/
            c = invokeerror.TimeoutOnCommit)
  | Some None => True
  | None => False
  end
  /\ fst (fst (Invoke env w)) = Some tt.
Proof.
  destruct (Invoke_step env w) as (r & w' & tr & Hout & Hinv & _ & _).
  rewrite Hinv. split; [|reflexivity].
  rewrite Hout. destruct r as [e|]; [|exact I].
  destruct (doInvoke_classified env w e Hout) as [c Hc].
  exists c. split; [exact Hc|]. destruct c; auto.
Qed.

(** C8: a query task's [Invoke] makes exactly one call, the query; it
    schedules no resubmission, waits for no commit, leaves the task as it
    was, and invokes the callback exactly once, with what the query call
    returned as its error (nil when there was none). *)
Theorem C8_query_invokes_callback_once
    (env : querytask.Env) (t : querytask.Task) :
  exists tr,
    querytask.Invoke env t = (Some tt, t, tr)
    /\ queries tr = 1%nat
    /\ executions tr = 0%nat
    /\ submissions tr = []
    /\ commit_waits tr = 0%nat
    /\ callbacks tr = [snd (querytask.query_result env)].
Proof.
  unfold querytask.Invoke.
  cbv [bind ret ask get emit querytask.QueryWithOpts
       querytask.call_callback Debugf].
  cbn. destruct (snd (querytask.query_result env)) as [err|]; cbn;
    eexists; (split; [reflexivity|]); cbn; auto.
Qed.

(** C1, as stated, fails: when the executor refuses the resubmission, the
    run of the task ends and the callback was never invoked. *)
Lemma C1_counterexample :
  wf_task (Examples.task 3)
  /\ ~ callback_exactly_once Examples.envs_orphan (Examples.task 3).
Proof.
  split.
  - unfold wf_task, int_range, int_min, int_max. cbn. lia.
  - intros (w & tr & n & Hrun & Hlen).
    vm_compute in Hrun. injection Hrun as <- <- <-.
    discriminate Hlen.
Qed.

(** C1 (amended): for every task and every sequence of attempt outcomes
    the run ends; an attempt that asks for a resubmission does not invoke
    the callback; and over the whole run the callback is invoked exactly
    once when no scheduling call fails, and not at all when one does. *)
Theorem C1_callback_once_unless_scheduling_fails
    (envs : nat -> Env) (t : Task) :
  wf_task t ->
  (exists w tr n,
      run envs t = Finished w tr n
      /\ ((failed_submissions tr = [] /\ exists r, callbacks tr = [r])
          \/ (callbacks tr = [] /\ exists e, failed_submissions tr = [e])))
  /\ (forall env w,
        submissions (snd (Invoke env w)) = []
        \/ callbacks (snd (Invoke env w)) = []).
Proof.
  intros Hwf. split.
  - destruct (drain_total envs (fuel_for t) 0 (submit t) 0 [] eq_refl Hwf)
      as (w & tr & n & Hrun & _ & _ & _ & Hcount).
    { unfold fuel_for. cbn [self submit]. lia. }
    exists w, tr, n. split; [exact Hrun|].
    destruct Hcount as [(r & Hc & Hf)|(Hc & e & Hf)]; [left|right]; eauto.
  - intros env w.
    destruct (Invoke_step env w) as (r & w' & tr & _ & Hinv & _ & Hr).
    rewrite Hinv. cbn [snd].
    destruct r as [e|].
    + destruct Hr as (_ & c & _ & [Hfin|Hre]).
      * destruct Hfin as (_ & _ & _ & pre & -> & _ & Hs & _).
        left. rewrite submissions_app, Hs. reflexivity.
      * right. apply Hre.
    + destruct Hr as (_ & _ & _ & pre & -> & _ & Hs & _).
      left. rewrite submissions_app, Hs. reflexivity.
Qed.

Lemma C1_witness :
  (exists w tr n,
      run Examples.envs_third_time_lucky (Examples.task 3)
      = Finished w tr n
      /\ ((failed_submissions tr = [] /\ exists r, callbacks tr = [r])
          \/ (callbacks tr = [] /\ exists e, failed_submissions tr = [e])))
  /\ (forall env w,
        submissions (snd (Invoke env w)) = []
        \/ callbacks (snd (Invoke env w)) = []).
Proof.
  apply (C1_callback_once_unless_scheduling_fails
           Examples.envs_third_time_lucky (Examples.task 3)).
  unfold wf_task, int_range, int_min, int_max. cbn. lia.
Defined.

(** The last allowed attempt: whatever it returns, the run ends with this
    call of [Invoke] and the callback receives its result. *)
Lemma last_attempt envs m w d r :
  scheduled w = [d] ->
  maxAttempts (self w) <= attempt (self w) ->
  yields (envs m) r ->
  exists w' tr',
    (forall tr, drain 1 envs m w tr = Finished w' (tr ++ tr') (S m))
    /\ callbacks tr' = [r]
    /\ attempt (self w') = attempt (self w).
Proof.
  intros Hq Hge Hy.
  destruct (Invoke_step (envs m) {| self := self w; scheduled := [] |})
    as (r' & w1 & tr1 & Hout & Hinv & _ & Hr).
  cbn [self scheduled] in Hr.
  rewrite Hy in Hout. injection Hout as <-.
  assert (Hfin : scheduled w1 = [] /\ attempt (self w1) = attempt (self w)
                 /\ callbacks tr1 = [r]).
  { destruct r as [e|].
    - destruct Hr as (_ & c & _ & [Hfin|Hre]).
      + destruct Hfin as (_ & Hq1 & Hatt & pre & -> & Hcb & _).
        rewrite callbacks_app, Hcb. auto.
      + destruct Hre as (_ & Hlt & _). lia.
    - destruct Hr as (Hq1 & Hatt & _ & pre & -> & Hcb & _).
      rewrite callbacks_app, Hcb. auto. }
  destruct Hfin as (Hq1 & Hatt & Hcb).
  exists w1, tr1. split; [|auto].
  intros tr. rewrite (drain_pop envs 0 m w d [] tr w1 tr1 Hq Hinv).
  apply drain_done. exact Hq1.
Qed.

(** C3: with maxAttempts = N >= 1, when each of the N attempts fails with
    a TransientError, the callback is invoked exactly once, with the
    TransientError of the N-th attempt, and afterwards Attempts() = N.
    The run always ends; the N attempts take place exactly when no
    scheduling call is refused. *)
Theorem C3_transient_failures_exhaust_attempts
    (envs : nat -> Env) (id : string) (cl : Ref) (cc : string)
    (a : ArgStruct) (ex : Ref) (N : Z) (delay : Duration) (v : bool)
    (p cb : Ref) :
  1 <= N <= int_max ->
  (forall k, (k < Z.to_nat N)%nat ->
             fails_with (envs k) invokeerror.TransientError) ->
  exists w tr n,
    run envs (New id cl cc a ex N delay v p cb) = Finished w tr n
    /\ (n <= Z.to_nat N)%nat
    /\ ((forall k, (S k < Z.to_nat N)%nat ->
                   submit_delayed_result (envs k) = None) ->
        n = Z.to_nat N)
    /\ (n = Z.to_nat N ->
        exists e,
          callbacks tr = [Some e]
          /\ yields (envs (Z.to_nat N - 1)%nat) (Some e)
          /\ ErrorCode e = Some invokeerror.TransientError
          /\ Attempts (self w) = N).
Proof.
  intros HN Htrans.
  set (t := New id cl cc a ex N delay v p cb).
  set (m := (Z.to_nat N - 1)%nat).
  assert (Hwf : wf_task t).
  { unfold wf_task, int_range, int_min, int_max in *. cbn. lia. }
  destruct (run_to_last_attempt envs t m Hwf)
    as [(i & w' & tr' & Hi & Hfail & Hcb & Hrun)
       |(Hok & w' & tr' & d' & Hq & Hfix & Hatt & Hcb & Hrun)].
  - unfold t, m. cbn [attempt maxAttempts New]. lia.
  - intros i Hi. apply Htrans. lia.
  - exists w', tr', (S i). split; [exact Hrun|].
    split; [lia|]. split.
    + intros Hall. exfalso. apply Hfail, Hall. lia.
    + intros Hn. lia.
  - destruct (Htrans m ltac:(lia)) as (e & Hy & He).
    destruct (last_attempt envs m w' d' (Some e) Hq) as (w & tr & Hlast & Hcb' & Hatt');
      [apply proj2 in Hfix; destruct Hfix as (_&_&_&_&Hmax&_); lia
      |exact Hy|].
    exists w, (tr' ++ tr), (S m).
    rewrite Hrun, Hlast. split; [reflexivity|].
    split; [lia|]. split; [intros _; lia|].
    intros _. exists e.
    rewrite callbacks_app, Hcb, Hcb'.
    repeat split; try assumption; try reflexivity.
    unfold Attempts. rewrite Hatt', Hatt. reflexivity.
Qed.

Lemma C3_witness :
  exists w tr e,
    run Examples.envs_conflicts (Examples.task 3) = Finished w tr 3
    /\ callbacks tr = [Some e]
    /\ yields (Examples.envs_conflicts 2) (Some e)
    /\ ErrorCode e = Some invokeerror.TransientError
    /\ Attempts (self w) = 3.
Proof.
  destruct (C3_transient_failures_exhaust_attempts Examples.envs_conflicts
              "task1" (ref 1) "example_cc" Examples.put_args (ref 2) 3
              (10 * Millisecond) false (ref 3) (ref 4))
    as (w & tr & n & Hrun & _ & Hall & Hn).
  - unfold int_max. lia.
  - intros k _. eexists. split; [intros w; reflexivity|reflexivity].
  - assert (En : n = Z.to_nat 3) by (apply Hall; intros; reflexivity).
    destruct (Hn En) as (e & Hcb & Hy & He & Hatt).
    exists w, tr, e. rewrite En in Hrun. auto.
Defined.

(** C4: with maxAttempts = N >= 1, when the first N-1 attempts fail with
    a TransientError and the N-th succeeds, the callback is invoked
    exactly once, with nil, and afterwards Attempts() = N.  The run
    always ends; the N attempts take place exactly when no scheduling
    call is refused. *)
Theorem C4_success_on_last_attempt
    (envs : nat -> Env) (id : string) (cl : Ref) (cc : string)
    (a : ArgStruct) (ex : Ref) (N : Z) (delay : Duration) (v : bool)
    (p cb : Ref) :
  1 <= N <= int_max ->
  (forall k, (S k < Z.to_nat N)%nat ->
             fails_with (envs k) invokeerror.TransientError) ->
  yields (envs (Z.to_nat N - 1)%nat) None ->
  exists w tr n,
    run envs (New id cl cc a ex N delay v p cb) = Finished w tr n
    /\ (n <= Z.to_nat N)%nat
    /\ ((forall k, (S k < Z.to_nat N)%nat ->
                   submit_delayed_result (envs k) = None) ->
        n = Z.to_nat N)
    /\ (n = Z.to_nat N ->
        callbacks tr = [None] /\ Attempts (self w) = N).
Proof.
  intros HN Htrans Hvalid.
  set (t := New id cl cc a ex N delay v p cb).
  set (m := (Z.to_nat N - 1)%nat) in *.
  assert (Hwf : wf_task t).
  { unfold wf_task, int_range, int_min, int_max in *. cbn. lia. }
  destruct (run_to_last_attempt envs t m Hwf)
    as [(i & w' & tr' & Hi & Hfail & Hcb & Hrun)
       |(Hok & w' & tr' & d' & Hq & Hfix & Hatt & Hcb & Hrun)].
  - unfold t, m. cbn [attempt maxAttempts New]. lia.
  - intros i Hi. apply Htrans. lia.
  - exists w', tr', (S i). split; [exact Hrun|].
    split; [lia|]. split.
    + intros Hall. exfalso. apply Hfail, Hall. lia.
    + intros Hn. lia.
  - destruct (last_attempt envs m w' d' None Hq)
      as (w & tr & Hlast & Hcb' & Hatt');
      [apply proj2 in Hfix; destruct Hfix as (_&_&_&_&Hmax&_); lia
      |exact Hvalid|].
    exists w, (tr' ++ tr), (S m).
    rewrite Hrun, Hlast. split; [reflexivity|].
    split; [lia|]. split; [intros _; lia|].
    intros _.
    rewrite callbacks_app, Hcb, Hcb'.
    split; [reflexivity|].
    unfold Attempts. rewrite Hatt', Hatt. reflexivity.
Qed.

Lemma C4_witness :
  exists w tr,
    run Examples.envs_third_time_lucky (Examples.task 3) = Finished w tr 3
    /\ callbacks tr = [None]
    /\ Attempts (self w) = 3.
Proof.
  destruct (C4_success_on_last_attempt Examples.envs_third_time_lucky
              "task1" (ref 1) "example_cc" Examples.put_args (ref 2) 3
              (10 * Millisecond) false (ref 3) (ref 4))
    as (w & tr & n & Hrun & _ & Hall & Hn).
  - unfold int_max. lia.
  - intros k Hk.
    assert (Hk2 : (k <? 2)%nat = true) by (apply Nat.ltb_lt; cbn in Hk; lia).
    unfold Examples.envs_third_time_lucky. rewrite Hk2.
    eexists. split; [intros w; reflexivity|reflexivity].
  - intros w. reflexivity.
  - assert (En : n = Z.to_nat 3).
    { apply Hall. intros k _. unfold Examples.envs_third_time_lucky.
      destruct (k <? 2)%nat; reflexivity. }
    destruct (Hn En) as (Hcb & Hatt).
    exists w, tr. rewrite En in Hrun. auto.
Defined.

(** C7: when an attempt with attempts left fails with a transient error
    and the call that schedules the resubmission returns an error, that
    error is only logged: the loop ends with this call of [Invoke], no
    further attempt runs, and the callback is not invoked, neither by
    this call nor, in the run of a task that came to this attempt through
    [k] resubmissions, by any earlier one. *)
Theorem C7_failed_scheduling_orphans_the_task
    (envs : nat -> Env) (t : Task) (k : nat) (e' : error) :
  wf_task t ->
  attempt t + Z.of_nat k < maxAttempts t ->
  (forall i, (i <= k)%nat ->
             fails_with (envs i) invokeerror.TransientError) ->
  (forall i, (i < k)%nat -> submit_delayed_result (envs i) = None) ->
  submit_delayed_result (envs k) = Some e' ->
  (forall w d,
      scheduled w = [d] ->
      attempt (self w) < maxAttempts (self w) ->
      exists w' tr',
        scheduled w' = []
        /\ callbacks tr' = []
        /\ logged_errors tr' = [("error submitting task: %s", [ArgError e'])]
        /\ forall fuel tr,
             drain (S fuel) envs k w tr = Finished w' (tr ++ tr') (S k))
  /\ exists w tr,
      run envs t = Finished w tr (S k)
      /\ callbacks tr = []
      /\ failed_submissions tr = [e']
      /\ logged_errors tr = [("error submitting task: %s", [ArgError e'])].
Proof.
  intros Hwf Hlt Htrans Hok Hsdr. split.
  - intros w d Hq Hlt'.
    destruct (drain_orphan envs k w d e' Hq (Htrans k (le_n k)) Hlt' Hsdr)
      as (w' & tr' & Hq' & Hcb & _ & Hlog & Hrun).
    exists w', tr'. auto.
  - destruct (drain_transients envs k 0 (submit t) 0 eq_refl Hwf)
      as [(i & w' & tr' & Hi & Hfail & _)
         |(_ & w1 & tr1 & d1 & Hq1 & Hfix & Hatt & Hcb1 & Hfs1 & Hle1 & Hrun)].
    + cbn [self submit]. lia.
    + intros i Hi. apply Htrans. cbn. lia.
    + exfalso. apply Hfail. apply Hok. exact Hi.
    + cbn [self submit Nat.add] in *.
      assert (Hmax : maxAttempts (self w1) = maxAttempts t) by apply Hfix.
      destruct (drain_orphan envs k w1 d1 e' Hq1 (Htrans k (le_n k)))
        as (w' & tr' & Hq' & Hcb & Hfs & Hlog & Hend);
        [lia|exact Hsdr|].
      exists w', (tr1 ++ tr').
      assert (Hfuel : exists f, fuel_for t = (k + S f)%nat).
      { exists (Z.to_nat (maxAttempts t - attempt t) - k)%nat.
        unfold fuel_for. lia. }
      destruct Hfuel as [f Hfuel].
      unfold run. rewrite Hfuel, Hrun, Hend.
      rewrite callbacks_app, failed_submissions_app, logged_errors_app,
        Hcb1, Hcb, Hfs1, Hfs, Hle1, Hlog.
      repeat split; reflexivity.
Qed.

Lemma C7_witness :
  exists w tr,
    run Examples.envs_orphan (Examples.task 3) = Finished w tr 1
    /\ callbacks tr = []
    /\ failed_submissions tr = [ForeignError "executor is shut down"]
    /\ logged_errors tr
       = [("error submitting task: %s",
           [ArgError (ForeignError "executor is shut down")])].
Proof.
  apply (C7_failed_scheduling_orphans_the_task Examples.envs_orphan
           (Examples.task 3) 0 (ForeignError "executor is shut down")).
  - unfold wf_task, int_range, int_min, int_max. cbn. lia.
  - cbn. lia.
  - intros i _. eexists. split; [intros w; reflexivity|reflexivity].
  - intros i Hi. lia.
  - reflexivity.
Defined.

(** The two scenarios of the specification, run on the model. *)
Example scenario_two_conflicts_then_valid :
  exists w tr,
    run Examples.envs_third_time_lucky (Examples.task 3) = Finished w tr 3
    /\ callbacks tr = [None]
    /\ submissions tr = [None; None]
    /\ Attempts (self w) = 3.
Proof. do 2 eexists. split; [vm_compute; reflexivity|]. cbn. auto. Qed.

Example scenario_single_attempt_times_out :
  exists w tr e,
    run (fun _ => Examples.env_timeout) (Examples.task 1) = Finished w tr 1
    /\ callbacks tr = [Some e]
    /\ ErrorCode e = Some invokeerror.TimeoutOnCommit
    /\ Attempts (self w) = 1.
Proof. do 3 eexists. split; [vm_compute; reflexivity|]. cbn. auto. Qed.

End Claims.

(** * Further properties of the two packages *)

Lemma transactions_app (tr1 tr2 : Trace) :
  transactions (tr1 ++ tr2) = transactions tr1 ++ transactions tr2.
Proof.
  induction tr1 as [|ev tr1 IH]; [reflexivity|].
  destruct ev; cbn; rewrite IH; reflexivity.
Qed.

Section Further.

Import invoketask.

Ltac go_unfold :=
  cbv [bind ret ask get emit modify panic this update ExecuteTxWithOpts
       select_commit SubmitDelayed call_callback Debugf Logger_Errorf].

(** Case analysis on everything a call of [Invoke] reads. *)
Ltac invoke_cases env w :=
  unfold Invoke, doInvoke; go_unfold;
  destruct (execute_result env) as [txn [e0|]];
  [|destruct (select_result env) as [s|];
    [destruct (TxValidationCode s =? pb.TxValidationCode_VALID);
     [|destruct ((TxValidationCode s =? pb.TxValidationCode_DUPLICATE_TXID)
                 || (TxValidationCode s =? pb.TxValidationCode_MVCC_READ_CONFLICT)
                 || (TxValidationCode s =? pb.TxValidationCode_PHANTOM_READ_CONFLICT))]
    |]];
  cbn -[Z.ltb wrap_int Z.add];
  try (destruct (attempt (self w) <? maxAttempts (self w));
       cbn -[wrap_int Z.add];
       try (destruct (submit_delayed_result env); cbn -[wrap_int Z.add])).

(** Each call of [Invoke] submits one transaction: the request and the
    filter of the task, to the task's client, with the configured
    timeout. *)
Lemma Invoke_transactions env w :
  transactions (snd (Invoke env w))
  = [(channelClient (self w), request_of (self w),
      {| TxFilter := filter_of (self w);
         Timeout := cfg_Timeout (config env) |})].
Proof. invoke_cases env w; reflexivity. Qed.

(** The transaction id after a call of [Invoke]: the one the submission
    returned, or the old one when the submission failed. *)
Lemma Invoke_txID env w :
  txID (self (snd (fst (Invoke env w))))
  = match execute_result env with
    | (txn, None) => ID txn
    | (_, Some _) => txID (self w)
    end.
Proof. invoke_cases env w; reflexivity. Qed.

(** The five ways an attempt can go, with what [doInvoke] returns in
    each. *)
Lemma outcome_cases env w :
  (exists txn e0,
      execute_result env = (txn, Some e0)
      /\ outcome env w
         = Some (Some (Errorf invokeerror.TransientError
                         "SendTransactionProposal return error: %v"
                         [ArgError e0])))
  \/ (exists txn,
         execute_result env = (txn, None) /\ select_result env = None
         /\ outcome env w
            = Some (Some (Errorf invokeerror.TimeoutOnCommit
                            "timed out waiting to receive block event for TxID [%s]"
                            [ArgString (ID txn)])))
  \/ (exists txn s,
         execute_result env = (txn, None) /\ select_result env = Some s
         /\ TxValidationCode s = pb.TxValidationCode_VALID
         /\ outcome env w = Some None)
  \/ (exists txn s,
         execute_result env = (txn, None) /\ select_result env = Some s
         /\ (TxValidationCode s = pb.TxValidationCode_DUPLICATE_TXID \/
             TxValidationCode s = pb.TxValidationCode_MVCC_READ_CONFLICT \/
             TxValidationCode s = pb.TxValidationCode_PHANTOM_READ_CONFLICT)
         /\ outcome env w
            = Some (Some (Wrapf invokeerror.TransientError (Error s)
                            "invoke Error received from eventhub for TxID [%s]. Code: %s"
                            [ArgString (ID txn);
                             ArgCode (TxValidationCode s)])))
  \/ (exists txn s,
         execute_result env = (txn, None) /\ select_result env = Some s
         /\ (TxValidationCode s <> pb.TxValidationCode_VALID /\
             TxValidationCode s <> pb.TxValidationCode_DUPLICATE_TXID /\
             TxValidationCode s <> pb.TxValidationCode_MVCC_READ_CONFLICT /\
             TxValidationCode s <> pb.TxValidationCode_PHANTOM_READ_CONFLICT)
         /\ outcome env w
            = Some (Some (Wrapf invokeerror.PersistentError (Error s)
                            "invoke Error received from eventhub for TxID [%s]. Code: %s"
                            [ArgString (ID txn);
                             ArgCode (TxValidationCode s)]))).
Proof.
  unfold outcome.
  destruct (execute_result env) as [txn [e0|]] eqn:Hex.
  - destruct (doInvoke_submit_error env w txn e0 Hex) as (tr & Hdo & _).
    rewrite Hdo. left. exists txn, e0. auto.
  - destruct (doInvoke_submitted env w txn Hex)
      as (r & tr & Hdo & _ & _ & _ & _ & Hr).
    rewrite Hdo. cbn [fst]. right.
    destruct (select_result env) as [s|].
    + cbn in Hr. destruct Hr as (Hv & Hc & Ho). right.
      destruct (code_cases (TxValidationCode s))
        as [E|[E|(E1 & E2 & E3 & E4)]].
      * left. exists txn, s. rewrite (Hv E). auto.
      * right. left. exists txn, s. rewrite (Hc E). auto.
      * right. right. exists txn, s. rewrite (Ho E1 E2 E3 E4). auto 10.
    + left. exists txn. rewrite Hr. auto.
Qed.

(** What the callback receives from a call of [Invoke], read off what
    [doInvoke] returned. *)
Lemma Invoke_callbacks env w r :
  outcome env w = Some r ->
  callbacks (snd (Invoke env w)) = [r]
  \/ callbacks (snd (Invoke env w)) = [] /\ r <> None.
Proof.
  intros Hout.
  destruct (Invoke_step env w) as (r' & w' & tr & Hout' & Hinv & _ & Hr).
  rewrite Hout in Hout'. injection Hout' as <-.
  rewrite Hinv. cbn [snd].
  destruct r as [e|].
  - destruct Hr as (_ & c & _ & [Hfin|Hre]).
    + destruct Hfin as (_ & _ & _ & pre & -> & Hcb & _).
      left. rewrite callbacks_app, Hcb. reflexivity.
    + right. split; [apply Hre|discriminate].
  - destruct Hr as (_ & _ & _ & pre & -> & Hcb & _).
    left. rewrite callbacks_app, Hcb. reflexivity.
Qed.

(** The assignment [targets[i] = p] at the first index that the loop has
    not written yet. *)
Lemma store_next (done rest : list ProposalProcessor) (x p : ProposalProcessor) :
  store (done ++ x :: rest) (List.length done) p = Some (done ++ p :: rest).
Proof.
  induction done as [|y done IH]; cbn; [reflexivity|].
  rewrite IH. reflexivity.
Qed.

(** The invariant of the loop: the slots below [i] hold the peers already
    visited, the others are still nil. *)
Lemma range_store_invariant (peers : list Peer) :
  forall done : list ProposalProcessor,
    range_store (List.length done) peers
      (done ++ make (List.length peers))
    = Some (done ++ peers).
Proof.
  induction peers as [|p peers IH]; intros done; cbn.
  - reflexivity.
  - unfold make. cbn [repeat]. rewrite store_next.
    specialize (IH (done ++ [p])).
    rewrite length_app, Nat.add_1_r, <- !app_assoc in IH.
    exact IH.
Qed.

(** X1: [asProposalProcessors] never panics and returns a slice with one
    processor per peer, the i-th being the i-th peer (nil peers
    included). *)
Theorem X1_asProposalProcessors_copies_peers (peers : list Peer) :
  exists targets,
    asProposalProcessors peers = Some targets
    /\ List.length targets = List.length peers
    /\ forall i, nth_error targets i = nth_error peers i.
Proof.
  exists peers. split; [exact (range_store_invariant peers [])|].
  split; reflexivity.
Qed.

(** X2: [Invoke] calls the callback with nil exactly when the transaction
    was submitted and a notification with code VALID arrived before the
    timeout. *)
Theorem X2_callback_nil_iff_valid (env : Env) (w : World) :
  callbacks (snd (Invoke env w)) = [None]
  <-> exists txn s,
        execute_result env = (txn, None)
        /\ select_result env = Some s
        /\ TxValidationCode s = pb.TxValidationCode_VALID.
Proof.
  destruct (outcome_cases env w)
    as [(txn & e0 & Hex & Hout)
       |[(txn & Hex & Hsel & Hout)
        |[(txn & s & Hex & Hsel & Hv & Hout)
         |[(txn & s & Hex & Hsel & Hc & Hout)
          |(txn & s & Hex & Hsel & (E1 & _) & Hout)]]]];
    (destruct (Invoke_callbacks env w _ Hout) as [H|[H Hnn]]; rewrite H);
    try contradiction;
    (split; [intros Hcb|intros (txn' & s' & Hex' & Hsel' & Hv')]);
    try discriminate Hcb;
    try (rewrite Hex in Hex'; discriminate Hex');
    try (rewrite Hsel in Hsel'; discriminate Hsel').
  - exists txn, s. auto.
  - reflexivity.
  - rewrite Hsel in Hsel'. injection Hsel' as <-.
    rewrite Hv' in Hc. destruct Hc as [Hc|[Hc|Hc]]; discriminate Hc.
  - rewrite Hsel in Hsel'. injection Hsel' as <-.
    rewrite Hv' in Hc. destruct Hc as [Hc|[Hc|Hc]]; discriminate Hc.
  - rewrite Hsel in Hsel'. injection Hsel' as <-. contradiction.
  - rewrite Hsel in Hsel'. injection Hsel' as <-. contradiction.
Qed.

(** X3: the kind of a failed attempt is decided by what happened, in both
    directions: TimeoutOnCommit exactly when the transaction was submitted
    and no notification arrived; PersistentError exactly when a
    notification arrived with a code other than VALID and the three
    conflict codes; TransientError exactly when the submission failed or a
    notification arrived with one of the conflict codes. *)
Theorem X3_failure_kind_iff (env : Env) :
  (fails_with env invokeerror.TimeoutOnCommit
   <-> exists txn, execute_result env = (txn, None)
                   /\ select_result env = None)
  /\ (fails_with env invokeerror.PersistentError
      <-> exists txn s,
            execute_result env = (txn, None)
            /\ select_result env = Some s
            /\ TxValidationCode s <> pb.TxValidationCode_VALID
            /\ TxValidationCode s <> pb.TxValidationCode_DUPLICATE_TXID
            /\ TxValidationCode s <> pb.TxValidationCode_MVCC_READ_CONFLICT
            /\ TxValidationCode s <> pb.TxValidationCode_PHANTOM_READ_CONFLICT)
  /\ (fails_with env invokeerror.TransientError
      <-> (exists txn e0, execute_result env = (txn, Some e0))
          \/ exists txn s,
               execute_result env = (txn, None)
               /\ select_result env = Some s
               /\ (TxValidationCode s = pb.TxValidationCode_DUPLICATE_TXID \/
                   TxValidationCode s = pb.TxValidationCode_MVCC_READ_CONFLICT \/
                   TxValidationCode s = pb.TxValidationCode_PHANTOM_READ_CONFLICT)).
Proof.
  set (w0 := {| self := New "" (ref 0) "" {| Func := ""; Args := [] |}
                          (ref 0) 0 0 false (ref 0) (ref 0);
                scheduled := [] |}).
  assert (Hcode : forall c,
    fails_with env c <->
    exists e, outcome env w0 = Some (Some e) /\ ErrorCode e = Some c).
  { intros c. split.
    - intros (e & Hy & He). exists e. split; [apply Hy|exact He].
    - intros (e & Hout & He). exists e.
      split; [exact (outcome_yields env w0 _ Hout)|exact He]. }
  rewrite !Hcode.
  destruct (outcome_cases env w0)
    as [(txn & e0 & Hex & Hout)
       |[(txn & Hex & Hsel & Hout)
        |[(txn & s & Hex & Hsel & Hv & Hout)
         |[(txn & s & Hex & Hsel & Hc & Hout)
          |(txn & s & Hex & Hsel & (E1 & E2 & E3 & E4) & Hout)]]]];
    rewrite Hout, Hex; try rewrite Hsel.
  - split; [|split]; split.
    + intros (e & [= <-] & He). discriminate He.
    + intros (txn' & [= _ H] & _).
    + intros (e & [= <-] & He). discriminate He.
    + intros (txn' & s & [= _ H] & _).
    + intros _. left. exists txn, e0. reflexivity.
    + intros _. eexists. split; reflexivity.
  - split; [|split]; split.
    + intros _. exists txn. auto.
    + intros _. eexists. split; reflexivity.
    + intros (e & [= <-] & He). discriminate He.
    + intros (txn' & s & _ & H & _). discriminate H.
    + intros (e & [= <-] & He). discriminate He.
    + intros [(txn' & e0 & [= _ H])|(txn' & s & _ & H & _)]; discriminate H.
  - split; [|split]; split.
    + intros (e & [= H] & _).
    + intros (txn' & _ & H). discriminate H.
    + intros (e & [= H] & _).
    + intros (txn' & s' & _ & [= <-] & H & _). contradiction.
    + intros (e & [= H] & _).
    + intros [(txn' & e0 & [= _ H])|(txn' & s' & _ & [= <-] & H)].
      rewrite Hv in H. destruct H as [H|[H|H]]; discriminate H.
  - split; [|split]; split.
    + intros (e & [= <-] & He). discriminate He.
    + intros (txn' & _ & H). discriminate H.
    + intros (e & [= <-] & He). discriminate He.
    + intros (txn' & s' & _ & [= <-] & _ & F1 & F2 & F3).
      destruct Hc as [H|[H|H]]; contradiction.
    + intros _. right. exists txn, s. auto.
    + intros _. eexists. split; reflexivity.
  - split; [|split]; split.
    + intros (e & [= <-] & He). discriminate He.
    + intros (txn' & _ & H). discriminate H.
    + intros _. exists txn, s. auto 10.
    + intros _. eexists. split; reflexivity.
    + intros (e & [= <-] & He). discriminate He.
    + intros [(txn' & e0 & [= _ H])|(txn' & s' & _ & [= <-] & H)].
      destruct H as [H|[H|H]]; contradiction.
Qed.

(** X4: after a call of [Invoke] the task holds the transaction id that
    this attempt's submission returned; when the submission failed, it
    still holds the id it had before (the id of an earlier attempt, or the
    empty id of a new task). *)
Theorem X4_transaction_id_recorded (env : Env) (w : World) :
  (forall txn, execute_result env = (txn, None) ->
               txID (self (snd (fst (Invoke env w)))) = ID txn)
  /\ (forall txn e0, execute_result env = (txn, Some e0) ->
                     txID (self (snd (fst (Invoke env w)))) = txID (self w)).
Proof.
  split; intros; rewrite Invoke_txID, H; reflexivity.
Qed.

(** X5: every call of [Invoke] submits exactly one transaction and waits
    for at most one commit; it ends either by invoking the callback or by
    asking the executor for a resubmission, never both and never neither;
    and it logs at error level only the errors of refused scheduling
    calls. *)
Theorem X5_invoke_calls_back_or_reschedules (env : Env) (w : World) :
  let tr := snd (Invoke env w) in
  executions tr = 1%nat
  /\ (commit_waits tr <= 1)%nat
  /\ (List.length (callbacks tr) + List.length (submissions tr) = 1)%nat
  /\ logged_errors tr
     = map (fun e => ("error submitting task: %s", [ArgError e]))
         (failed_submissions tr).
Proof.
  invoke_cases env w; repeat split; cbn; lia.
Qed.

(** X6: a successful attempt does not clear the last error: after a failed
    call of [Invoke] followed by a successful one, the callback has
    received nil while LastError() still returns the error of the failed
    attempt. *)
Theorem X6_last_error_survives_success
    (env1 env2 : Env) (w : World) (e : error) :
  yields env1 (Some e) ->
  yields env2 None ->
  let w1 := snd (fst (Invoke env1 w)) in
  let w2 := snd (fst (Invoke env2 w1)) in
  LastError (self w1) = Some e
  /\ callbacks (snd (Invoke env2 w1)) = [None]
  /\ LastError (self w2) = Some e.
Proof.
  intros Hy1 Hy2 w1 w2.
  destruct (Invoke_step env1 w) as (r1 & w1' & tr1 & Hout1 & Hinv1 & _ & Hr1).
  rewrite (Hy1 w) in Hout1. injection Hout1 as <-.
  assert (Hw1 : w1 = w1') by (unfold w1; rewrite Hinv1; reflexivity).
  assert (Hl1 : LastError (self w1) = Some e) by (rewrite Hw1; apply Hr1).
  destruct (Invoke_step env2 w1) as (r2 & w2' & tr2 & Hout2 & Hinv2 & _ & Hr2).
  rewrite (Hy2 w1) in Hout2. injection Hout2 as <-.
  destruct Hr2 as (_ & _ & Hl2 & pre & -> & Hcb & _).
  split; [exact Hl1|].
  unfold w2. rewrite Hinv2. cbn [fst snd].
  split; [rewrite callbacks_app, Hcb; reflexivity|].
  unfold LastError in *. rewrite Hl2. exact Hl1.
Qed.

Lemma X6_witness :
  let w1 := snd (fst (Invoke
                        (Examples.env_code
                           pb.TxValidationCode_MVCC_READ_CONFLICT None)
                        {| self := Examples.task 3; scheduled := [] |})) in
  let w2 := snd (fst (Invoke
                        (Examples.env_code pb.TxValidationCode_VALID None)
                        w1)) in
  callbacks (snd (Invoke (Examples.env_code pb.TxValidationCode_VALID None)
                    w1)) = [None]
  /\ LastError (self w2)
     = Some (Wrapf invokeerror.TransientError None
               "invoke Error received from eventhub for TxID [%s]. Code: %s"
               [ArgString "tx1";
                ArgCode pb.TxValidationCode_MVCC_READ_CONFLICT]).
Proof.
  apply (X6_last_error_survives_success
           (Examples.env_code pb.TxValidationCode_MVCC_READ_CONFLICT None)
           (Examples.env_code pb.TxValidationCode_VALID None)
           {| self := Examples.task 3; scheduled := [] |}).
  - intros w. reflexivity.
  - intros w. reflexivity.
Defined.

(** X7: the attempt counter never wraps around: on a task whose counters
    are Go ints, a call of [Invoke] leaves the counter as it was or adds
    exactly one, keeps it a Go int, and never moves it above maxAttempts
    when it was not above before. *)
Theorem X7_attempt_counter_never_wraps (env : Env) (w : World) :
  wf_task (self w) ->
  let t' := self (snd (fst (Invoke env w))) in
  wf_task t'
  /\ (attempt t' = attempt (self w) \/ attempt t' = attempt (self w) + 1)
  /\ (attempt (self w) <= maxAttempts (self w) ->
      attempt t' <= maxAttempts t').
Proof.
  intros Hwf t'.
  destruct (Invoke_step env w) as (r & w' & tr & _ & Hinv & Hfix & Hr).
  unfold t'. rewrite Hinv. cbn [fst snd].
  assert (Hmax : maxAttempts (self w') = maxAttempts (self w)) by apply Hfix.
  assert (Hcase :
    attempt (self w') = attempt (self w)
    \/ (attempt (self w) < maxAttempts (self w)
        /\ attempt (self w') = wrap_int (attempt (self w) + 1))).
  { destruct r as [e|].
    - destruct Hr as (_ & c & _ & [Hfin|Hre]).
      + left. apply Hfin.
      + right. split; apply Hre.
    - left. apply Hr. }
  destruct Hcase as [Hsame|[Hlt Hinc]].
  - unfold wf_task. rewrite Hmax, Hsame. auto.
  - destruct (resubmit_wf _ _ Hwf Hlt Hmax Hinc) as [Hwf' Hatt'].
    rewrite Hmax, Hatt'. repeat split; try apply Hwf'; try lia; auto.
Qed.

Lemma X7_witness :
  let t' := self (snd (fst (Invoke
                              (Examples.env_code
                                 pb.TxValidationCode_MVCC_READ_CONFLICT None)
                              (submit (Examples.task 3))))) in
  wf_task t'
  /\ (attempt t' = 1 \/ attempt t' = 1 + 1)
  /\ (1 <= 3 -> attempt t' <= maxAttempts t').
Proof.
  apply (X7_attempt_counter_never_wraps
           (Examples.env_code pb.TxValidationCode_MVCC_READ_CONFLICT None)
           (submit (Examples.task 3))).
  unfold wf_task, int_range, int_min, int_max. cbn. lia.
Defined.



Lemma same_fixed_request (t t' : Task) :
  same_fixed_fields t t' ->
  channelClient t' = channelClient t
  /\ request_of t' = request_of t
  /\ filter_of t' = filter_of t.
Proof.
  intros (_ & Hcl & _ & Hcc & Hargs & _ & _ & _ & Hv & Hp).
  unfold request_of, filter_of. rewrite Hcl, Hcc, Hargs, Hv, Hp. auto.
Qed.

(** What a whole run of the loop adds up to: the counter counts the
    scheduling calls; every call of [Invoke] but the first follows a
    scheduling call that was accepted; every attempt submits the request
    of the task; an error passed to the callback is the last error; and
    the last error stays as it was only when the first attempt
    succeeds. *)
Lemma drain_observed envs fuel :
  forall k w d tr,
    scheduled w = [d] ->
    wf_task (self w) ->
    (Z.to_nat (maxAttempts (self w) - attempt (self w)) < fuel)%nat ->
    exists w' tr' n,
      drain fuel envs k w tr = Finished w' (tr ++ tr') n
      /\ (k < n)%nat
      /\ attempt (self w')
         = attempt (self w) + Z.of_nat (List.length (submissions tr'))
      /\ (n + List.length (failed_submissions tr')
          = S k + List.length (submissions tr'))%nat
      /\ attempt (self w') <= Z.max (attempt (self w)) (maxAttempts (self w))
      /\ List.length (transactions tr') = (n - k)%nat
      /\ Forall (fun x : Ref * Request * Opts =>
                   fst (fst x) = channelClient (self w)
                   /\ snd (fst x) = request_of (self w)
                   /\ TxFilter (snd x) = filter_of (self w))
           (transactions tr')
      /\ (forall e, callbacks tr' = [Some e] ->
                    lastErr (self w') = Some e
                    /\ (ErrorCode e = Some invokeerror.TransientError ->
                        maxAttempts (self w) <= attempt (self w')))
      /\ ((n = S k /\ callbacks tr' = [None]
           /\ lastErr (self w') = lastErr (self w))
          \/ ((exists e, lastErr (self w') = Some e)
              /\ (callbacks tr' <> [None] \/ (S k < n)%nat))).
Proof.
  induction fuel as [|fuel IH]; intros k w d tr Hq Hwf Hfuel; [lia|].
  set (w0 := {| self := self w; scheduled := [] |}).
  destruct (Invoke_step (envs k) w0)
    as (r & w1 & tr1 & Hout & Hinv & Hfix & Hr).
  pose proof (Invoke_transactions (envs k) w0) as Htx.
  rewrite Hinv in Htx. cbn [snd self w0] in Htx.
  rewrite (drain_pop envs fuel k w d [] tr w1 tr1 Hq Hinv).
  cbn [self scheduled w0] in Hfix, Hr.
  assert (Hone :
    Forall (fun x : Ref * Request * Opts =>
              fst (fst x) = channelClient (self w)
              /\ snd (fst x) = request_of (self w)
              /\ TxFilter (snd x) = filter_of (self w))
      (transactions tr1)).
  { rewrite Htx. constructor; [cbn; auto|constructor]. }
  assert (Hend :
    scheduled w1 = [] ->
    attempt (self w1)
    = attempt (self w) + Z.of_nat (List.length (submissions tr1)) ->
    List.length (failed_submissions tr1) = List.length (submissions tr1) ->
    attempt (self w1) <= Z.max (attempt (self w)) (maxAttempts (self w)) ->
    (forall e, callbacks tr1 = [Some e] ->
               lastErr (self w1) = Some e
               /\ (ErrorCode e = Some invokeerror.TransientError ->
                   maxAttempts (self w) <= attempt (self w1))) ->
    (callbacks tr1 = [None] /\ lastErr (self w1) = lastErr (self w))
    \/ ((exists e, lastErr (self w1) = Some e) /\ callbacks tr1 <> [None]) ->
    exists w' tr' n,
      drain fuel envs (S k) w1 (tr ++ tr1) = Finished w' (tr ++ tr') n
      /\ (k < n)%nat
      /\ attempt (self w')
         = attempt (self w) + Z.of_nat (List.length (submissions tr'))
      /\ (n + List.length (failed_submissions tr')
          = S k + List.length (submissions tr'))%nat
      /\ attempt (self w') <= Z.max (attempt (self w)) (maxAttempts (self w))
      /\ List.length (transactions tr') = (n - k)%nat
      /\ Forall (fun x : Ref * Request * Opts =>
                   fst (fst x) = channelClient (self w)
                   /\ snd (fst x) = request_of (self w)
                   /\ TxFilter (snd x) = filter_of (self w))
           (transactions tr')
      /\ (forall e, callbacks tr' = [Some e] ->
                    lastErr (self w') = Some e
                    /\ (ErrorCode e = Some invokeerror.TransientError ->
                        maxAttempts (self w) <= attempt (self w')))
      /\ ((n = S k /\ callbacks tr' = [None]
           /\ lastErr (self w') = lastErr (self w))
          \/ ((exists e, lastErr (self w') = Some e)
              /\ (callbacks tr' <> [None] \/ (S k < n)%nat)))).
  { intros Hq1 Hatt Hfs Hle Hcbe Hlast. exists w1, tr1, (S k).
    rewrite (drain_done envs fuel (S k) w1 _ Hq1).
    split; [reflexivity|]. split; [lia|]. split; [exact Hatt|].
    split; [lia|]. split; [exact Hle|].
    split; [rewrite Htx; cbn [List.length]; lia|]. split; [exact Hone|].
    split; [exact Hcbe|].
    destruct Hlast as [(Hc & Hl)|(He & Hc)]; [left|right]; auto. }
  assert (Hfin_tr : forall pre cb r',
    tr1 = pre ++ [EvCallback cb r'] ->
    callbacks pre = [] -> submissions pre = [] ->
    callbacks tr1 = [r'] /\ submissions tr1 = []
    /\ failed_submissions tr1 = []).
  { intros pre cb r' -> Hc Hs.
    rewrite callbacks_app, submissions_app, failed_submissions_app, Hc, Hs.
    rewrite (failed_of_submissions pre), Hs. auto. }
  destruct r as [e|].
  - destruct Hr as (Hlast & c & Hc & [Hfin|Hre]).
    + destruct Hfin as (Hwhy & Hq1 & Hatt & pre & Htr & Hc1 & Hs1 & _).
      destruct (Hfin_tr _ _ _ Htr Hc1 Hs1) as (Hcb & Hsub & Hfs).
      apply Hend; try assumption.
      * rewrite Hsub, Hatt. cbn. lia.
      * rewrite Hsub, Hfs. reflexivity.
      * rewrite Hatt. lia.
      * intros e1 He1. rewrite Hcb in He1. injection He1 as <-.
        split; [exact Hlast|]. intros Ht. rewrite Hatt.
        destruct Hwhy as [Hnt|Hge]; [congruence|exact Hge].
      * right. split; [eauto|]. rewrite Hcb. discriminate.
    + destruct Hre as (-> & Hlt & Hatt & Hq1 & Hcb & Hsub & Hlog).
      assert (Hmax : maxAttempts (self w1) = maxAttempts (self w))
        by apply Hfix.
      destruct (resubmit_wf _ _ Hwf Hlt Hmax Hatt) as [Hwf1 Hatt1].
      destruct (submit_delayed_result (envs k)) as [e'|] eqn:Hsdr.
      * apply Hend; try assumption.
        -- rewrite Hsub, Hatt1. cbn. lia.
        -- rewrite failed_of_submissions, Hsub. reflexivity.
        -- rewrite Hatt1. lia.
        -- intros e1 He1. rewrite Hcb in He1. discriminate.
        -- right. split; [eauto|]. rewrite Hcb. discriminate.
      * destruct (IH (S k) w1 (resubmitDelay (self w)) (tr ++ tr1) Hq1 Hwf1)
          as (w' & tr' & n & Hrun & Hn & Hatt' & Hcount & Hle & Hlen & Hall
              & Hcbe & Hlast').
        { rewrite Hmax, Hatt1. lia. }
        destruct (same_fixed_request _ _ Hfix) as (Hcl & Hreq & Hfil).
        exists w', (tr1 ++ tr'), n.
        rewrite app_assoc. split; [exact Hrun|].
        rewrite submissions_app, failed_submissions_app, callbacks_app,
          transactions_app, (failed_of_submissions tr1), Hsub, Hcb, Htx.
        cbn [flat_map app List.length].
        split; [lia|]. split; [rewrite Hatt', Hatt1; lia|].
        split; [lia|]. split; [rewrite Hmax, Hatt1 in Hle; lia|].
        split; [lia|]. split.
        { constructor; [cbn; auto|].
          rewrite Hcl, Hreq, Hfil in Hall. exact Hall. }
        split; [intros e1 He1; rewrite <- Hmax; exact (Hcbe e1 He1)|].
        right. split; [|right; lia].
        destruct Hlast' as [(_ & _ & Hl)|([e1 He1] & _)].
        -- exists e. rewrite Hl. exact Hlast.
        -- exists e1. exact He1.
  - destruct Hr as (Hq1 & Hatt & Hlast & pre & Htr & Hc1 & Hs1 & _).
    destruct (Hfin_tr _ _ _ Htr Hc1 Hs1) as (Hcb & Hsub & Hfs).
    apply Hend; try assumption.
    + rewrite Hsub, Hatt. cbn. lia.
    + rewrite Hsub, Hfs. reflexivity.
    + rewrite Hatt. lia.
    + intros e1 He1. rewrite Hcb in He1. discriminate.
    + left. auto.
Qed.

(** The run of a task, with what [drain_observed] and [drain_total] say
    about it. *)
Lemma run_observed envs t :
  wf_task t ->
  exists w tr n,
    run envs t = Finished w tr n
    /\ (0 < n)%nat
    /\ attempt (self w) = attempt t + Z.of_nat (List.length (submissions tr))
    /\ (n + List.length (failed_submissions tr)
        = 1 + List.length (submissions tr))%nat
    /\ attempt (self w) <= Z.max (attempt t) (maxAttempts t)
    /\ List.length (transactions tr) = n
    /\ Forall (fun x : Ref * Request * Opts =>
                 fst (fst x) = channelClient t
                 /\ snd (fst x) = request_of t
                 /\ TxFilter (snd x) = filter_of t)
         (transactions tr)
    /\ (forall e, callbacks tr = [Some e] ->
                  lastErr (self w) = Some e
                  /\ (ErrorCode e = Some invokeerror.TransientError ->
                      maxAttempts t <= attempt (self w)))
    /\ ((n = 1%nat /\ callbacks tr = [None] /\ lastErr (self w) = lastErr t)
        \/ ((exists e, lastErr (self w) = Some e)
            /\ (callbacks tr <> [None] \/ (1 < n)%nat)))
    /\ (List.length (failed_submissions tr) <= 1)%nat.
Proof.
  intros Hwf.
  assert (Hfuel : (Z.to_nat (maxAttempts (self (submit t))
                             - attempt (self (submit t)))
                   < fuel_for t)%nat)
    by (unfold fuel_for; cbn [self submit]; lia).
  destruct (drain_observed envs (fuel_for t) 0 (submit t) 0 [] eq_refl Hwf Hfuel)
    as (w & tr & n & Hrun & Hn & Hatt & Hcount & Hle & Hlen & Hall & Hcbe
        & Hlast).
  destruct (drain_total envs (fuel_for t) 0 (submit t) 0 [] eq_refl Hwf Hfuel)
    as (w2 & tr2 & n2 & Hrun2 & _ & _ & _ & Hone).
  rewrite Hrun in Hrun2. injection Hrun2 as _ <- _.
  cbn [self submit app] in *.
  exists w, tr, n. unfold run.
  repeat (split; [first [assumption | lia]|]).
  destruct Hone as [(_ & _ & ->)|(_ & e & ->)]; cbn; lia.
Qed.

(** X9: after the run of a task, Attempts() has grown by the number of
    scheduling calls that [Invoke] made.  So it counts the calls of
    [Invoke] when the run ended with the callback, and is one more than
    the attempts that ran when the executor refused the last
    resubmission. *)
Theorem X9_attempts_count_scheduling_calls (envs : nat -> Env) (t : Task) :
  wf_task t ->
  exists w tr n,
    run envs t = Finished w tr n
    /\ Attempts (self w)
       = Attempts t + Z.of_nat (List.length (submissions tr))
    /\ (failed_submissions tr = [] ->
        Attempts (self w) = Attempts t + Z.of_nat n - 1)
    /\ (failed_submissions tr <> [] ->
        Attempts (self w) = Attempts t + Z.of_nat n).
Proof.
  intros Hwf.
  destruct (run_observed envs t Hwf)
    as (w & tr & n & Hrun & Hn & Hatt & Hcount & _ & _ & _ & _ & _ & Hone).
  exists w, tr, n. unfold Attempts.
  split; [exact Hrun|]. split; [exact Hatt|]. split.
  - intros Hnil. rewrite Hnil in Hcount. cbn in Hcount. lia.
  - intros Hsome.
    destruct (failed_submissions tr) as [|e [|e2 l]];
      [contradiction|cbn in Hcount; lia|cbn in Hone; lia].
Qed.

Lemma X9_witness :
  exists w tr n,
    run Examples.envs_orphan (Examples.task 3) = Finished w tr n
    /\ Attempts (self w)
       = Attempts (Examples.task 3) + Z.of_nat (List.length (submissions tr))
    /\ (failed_submissions tr = [] ->
        Attempts (self w) = Attempts (Examples.task 3) + Z.of_nat n - 1)
    /\ (failed_submissions tr <> [] ->
        Attempts (self w) = Attempts (Examples.task 3) + Z.of_nat n).
Proof.
  apply (X9_attempts_count_scheduling_calls Examples.envs_orphan
           (Examples.task 3)).
  unfold wf_task, int_range, int_min, int_max. cbn. lia.
Defined.

(** X10: a run makes at least one and at most
    max(1, maxAttempts - attempt + 1) calls of [Invoke] (at most
    max(1, maxAttempts) for a new task), and Attempts() never decreases
    and never exceeds the larger of its first value and maxAttempts. *)
Theorem X10_run_is_bounded (envs : nat -> Env) (t : Task) :
  wf_task t ->
  exists w tr n,
    run envs t = Finished w tr n
    /\ (1 <= n)%nat
    /\ Z.of_nat n <= Z.max 1 (maxAttempts t - attempt t + 1)
    /\ Attempts t <= Attempts (self w) <= Z.max (Attempts t) (maxAttempts t).
Proof.
  intros Hwf.
  destruct (run_observed envs t Hwf)
    as (w & tr & n & Hrun & Hn & Hatt & Hcount & Hle & _).
  exists w, tr, n. unfold Attempts.
  split; [exact Hrun|]. repeat split; lia.
Qed.

Lemma X10_witness :
  exists w tr n,
    run Examples.envs_conflicts (Examples.task 3) = Finished w tr n
    /\ (1 <= n)%nat
    /\ Z.of_nat n <= Z.max 1 (3 - 1 + 1)
    /\ 1 <= Attempts (self w) <= Z.max 1 3.
Proof.
  apply (X10_run_is_bounded Examples.envs_conflicts (Examples.task 3)).
  unfold wf_task, int_range, int_min, int_max. cbn. lia.
Defined.

(** X11: a task with no attempt left (maxAttempts at or below the attempt
    counter, as for a new task with maxAttempts 1, 0 or negative) is
    invoked once and never resubmitted: whatever the attempt returns goes
    to the callback, no scheduling call is made and Attempts() keeps its
    value. *)
Theorem X11_no_retry_without_attempts_left (envs : nat -> Env) (t : Task) :
  maxAttempts t <= attempt t ->
  exists w tr r,
    run envs t = Finished w tr 1
    /\ yields (envs 0%nat) r
    /\ callbacks tr = [r]
    /\ submissions tr = []
    /\ Attempts (self w) = Attempts t.
Proof.
  intros Hle.
  set (w0 := {| self := t; scheduled := [] |}).
  destruct (Invoke_step (envs 0%nat) w0)
    as (r & w1 & tr1 & Hout & Hinv & _ & Hr).
  cbn [self scheduled w0] in Hr.
  assert (Hfin : scheduled w1 = [] /\ attempt (self w1) = attempt t
                 /\ callbacks tr1 = [r] /\ submissions tr1 = []).
  { destruct r as [e|].
    - destruct Hr as (_ & c & _ & [Hfin|Hre]).
      + destruct Hfin as (_ & Hq1 & Hatt & pre & -> & Hcb & Hsub & _).
        rewrite callbacks_app, submissions_app, Hcb, Hsub. auto.
      + destruct Hre as (_ & Hlt & _). lia.
    - destruct Hr as (Hq1 & Hatt & _ & pre & -> & Hcb & Hsub & _).
      rewrite callbacks_app, submissions_app, Hcb, Hsub. auto. }
  destruct Hfin as (Hq1 & Hatt & Hcb & Hsub).
  exists w1, tr1, r.
  split; [exact (run_single envs t w1 tr1 Hinv Hq1)|].
  split; [exact (outcome_yields _ _ _ Hout)|]. auto.
Qed.

Lemma X11_witness :
  exists w tr r,
    run Examples.envs_conflicts (Examples.task 0) = Finished w tr 1
    /\ yields (Examples.envs_conflicts 0%nat) r
    /\ callbacks tr = [r]
    /\ submissions tr = []
    /\ Attempts (self w) = Attempts (Examples.task 0).
Proof.
  apply (X11_no_retry_without_attempts_left Examples.envs_conflicts
           (Examples.task 0)).
  cbn. lia.
Defined.

(** X12: every attempt of a run submits the same transaction: as many
    submissions as calls of [Invoke], each to the task's client, with the
    request built from the task's chaincode id and arguments and the
    filter built from its verbose flag and printer, as they were when the
    run began. *)
Theorem X12_every_attempt_submits_same_request
    (envs : nat -> Env) (t : Task) :
  wf_task t ->
  exists w tr n,
    run envs t = Finished w tr n
    /\ List.length (transactions tr) = n
    /\ Forall (fun x : Ref * Request * Opts =>
                 fst (fst x) = channelClient t
                 /\ snd (fst x) = request_of t
                 /\ TxFilter (snd x) = filter_of t)
         (transactions tr).
Proof.
  intros Hwf.
  destruct (run_observed envs t Hwf)
    as (w & tr & n & Hrun & _ & _ & _ & _ & Hlen & Hall & _).
  exists w, tr, n. auto.
Qed.

Lemma X12_witness :
  exists w tr n,
    run Examples.envs_third_time_lucky (Examples.task 3) = Finished w tr n
    /\ List.length (transactions tr) = n
    /\ Forall (fun x : Ref * Request * Opts =>
                 fst (fst x) = channelClient (Examples.task 3)
                 /\ snd (fst x) = request_of (Examples.task 3)
                 /\ TxFilter (snd x) = filter_of (Examples.task 3))
         (transactions tr).
Proof.
  apply (X12_every_attempt_submits_same_request
           Examples.envs_third_time_lucky (Examples.task 3)).
  unfold wf_task, int_range, int_min, int_max. cbn. lia.
Defined.

(** X13: when the run of a task ends with the callback receiving an
    error, LastError() returns that same error afterwards.  And for a task
    that had no last error, LastError() is nil after the run exactly when
    the first attempt succeeded (one call of [Invoke], callback with
    nil). *)
Theorem X13_callback_error_is_last_error (envs : nat -> Env) (t : Task) :
  wf_task t ->
  exists w tr n,
    run envs t = Finished w tr n
    /\ (forall e, callbacks tr = [Some e] -> LastError (self w) = Some e)
    /\ (LastError t = None ->
        (LastError (self w) = None
         <-> n = 1%nat /\ callbacks tr = [None])).
Proof.
  intros Hwf.
  destruct (run_observed envs t Hwf)
    as (w & tr & n & Hrun & _ & _ & _ & _ & _ & _ & Hcbe & Hlast & _).
  exists w, tr, n. unfold LastError.
  split; [exact Hrun|]. split; [intros e He; exact (proj1 (Hcbe e He))|].
  intros Hnone. split.
  - intros Hw.
    destruct Hlast as [(Hn & Hcb & _)|([e He] & _)]; [auto|congruence].
  - intros (Hn & Hcb).
    destruct Hlast as [(_ & _ & Hl)|(_ & [Hc|Hlt])];
      [congruence|contradiction|lia].
Qed.

Lemma X13_witness :
  exists w tr n,
    run Examples.envs_conflicts (Examples.task 3) = Finished w tr n
    /\ (forall e, callbacks tr = [Some e] -> LastError (self w) = Some e)
    /\ (LastError (Examples.task 3) = None ->
        (LastError (self w) = None
         <-> n = 1%nat /\ callbacks tr = [None])).
Proof.
  apply (X13_callback_error_is_last_error Examples.envs_conflicts
           (Examples.task 3)).
  unfold wf_task, int_range, int_min, int_max. cbn. lia.
Defined.

(** X14: the callback receives a TransientError only after the last
    allowed attempt: when the run of a task that began with its counter at
    or below maxAttempts ends with a TransientError passed to the callback,
    Attempts() equals maxAttempts. *)
Theorem X14_transient_error_only_when_exhausted
    (envs : nat -> Env) (t : Task) :
  wf_task t ->
  attempt t <= maxAttempts t ->
  exists w tr n,
    run envs t = Finished w tr n
    /\ forall e,
         callbacks tr = [Some e] ->
         ErrorCode e = Some invokeerror.TransientError ->
         Attempts (self w) = maxAttempts t.
Proof.
  intros Hwf Hle.
  destruct (run_observed envs t Hwf)
    as (w & tr & n & Hrun & _ & _ & _ & Hmax & _ & _ & Hcbe & _).
  exists w, tr, n. split; [exact Hrun|].
  intros e He Ht. destruct (Hcbe e He) as (_ & Hge).
  specialize (Hge Ht). unfold Attempts. lia.
Qed.

Lemma X14_witness :
  exists w tr n,
    run Examples.envs_conflicts (Examples.task 3) = Finished w tr n
    /\ forall e,
         callbacks tr = [Some e] ->
         ErrorCode e = Some invokeerror.TransientError ->
         Attempts (self w) = 3.
Proof.
  apply (X14_transient_error_only_when_exhausted Examples.envs_conflicts
           (Examples.task 3)).
  - unfold wf_task, int_range, int_min, int_max. cbn. lia.
  - cbn. lia.
Defined.

End Further.
